(** * JUnit report analysis: a shallow embedding of [junit.ts]

    The development follows the TypeScript source function by function:
    JavaScript numbers are IEEE 754 binary64 values, arrays are lists, the
    mutable variables of [getJUnitReportFromXml] are threaded through the two
    loops as an explicit state record. *)

From Stdlib Require Import ZArith NArith List String Ascii Bool Lia
  Permutation Sorted.
Import ListNotations.
Local Open Scope Z_scope.

(** ** JavaScript numbers

    A finite binary64 value is an integer multiple of [2^-1074] (the smallest
    subnormal), so [Fin z] stands for the value [z * 2^-1074].  The sign of
    zero is not tracked: no operation of the analyzer observes it.
    Arithmetic rounds to nearest, ties to even, and overflows to an infinity,
    as the language prescribes. *)

Inductive number : Type :=
| NaN
| NegInf
| Fin (z : Z)
| PosInf.

Module Num.

(** Number of units of [2^-1074] in the value 1. *)
Definition unit : Z := 2 ^ 1074.

(** First magnitude (in units) that no longer fits: [2^1024]. *)
Definition overflow : Z := 2 ^ 2098.

(** [round p q] is the binary64 value nearest to the rational [p / q]
    units ([0 < q]), ties going to the even significand. *)
Definition round (p q : Z) : number :=
  let a := Z.abs p in
  let t := Z.max 0 (Z.log2 (a / q) - 52) in
  let d := q * 2 ^ t in
  let m := a / d in
  let r := a mod d in
  let m' := match 2 * r ?= d with
            | Lt => m
            | Gt => m + 1
            | Eq => if Z.even m then m else m + 1
            end in
  let v := m' * 2 ^ t in
  if overflow <=? v then (if p <? 0 then NegInf else PosInf)
  else Fin (Z.sgn p * v).

(** [Number.isFinite]. *)
Definition isFinite (x : number) : bool :=
  match x with Fin _ => true | _ => false end.

Definition neg (x : number) : number :=
  match x with
  | NaN => NaN
  | NegInf => PosInf
  | PosInf => NegInf
  | Fin z => Fin (- z)
  end.

(** [x + y]. *)
Definition add (x y : number) : number :=
  match x, y with
  | NaN, _ | _, NaN => NaN
  | PosInf, NegInf | NegInf, PosInf => NaN
  | PosInf, _ | _, PosInf => PosInf
  | NegInf, _ | _, NegInf => NegInf
  | Fin a, Fin b => round (a + b) 1
  end.

(** [x - y]. *)
Definition sub (x y : number) : number := add x (neg y).

Definition sign_inf (neg_result : bool) : number :=
  if neg_result then NegInf else PosInf.

(** [x * y]. *)
Definition mul (x y : number) : number :=
  match x, y with
  | NaN, _ | _, NaN => NaN
  | Fin a, Fin b => round (a * b) unit
  | Fin a, PosInf | PosInf, Fin a =>
      if a =? 0 then NaN else sign_inf (a <? 0)
  | Fin a, NegInf | NegInf, Fin a =>
      if a =? 0 then NaN else sign_inf (0 <? a)
  | PosInf, PosInf | NegInf, NegInf => PosInf
  | PosInf, NegInf | NegInf, PosInf => NegInf
  end.

(** [x > y]: false as soon as one side is [NaN]. *)
Definition gt (x y : number) : bool :=
  match x, y with
  | NaN, _ | _, NaN => false
  | PosInf, PosInf => false
  | PosInf, _ => true
  | _, PosInf => false
  | NegInf, _ => false
  | Fin _, NegInf => true
  | Fin a, Fin b => b <? a
  end.

(** [x < y]. *)
Definition lt (x y : number) : bool := gt y x.

(** [x >= y]. *)
Definition ge (x y : number) : bool :=
  match x, y with
  | NaN, _ | _, NaN => false
  | PosInf, _ => true
  | _, PosInf => false
  | _, NegInf => true
  | NegInf, Fin _ => false
  | Fin a, Fin b => b <=? a
  end.

(** [x <= y]. *)
Definition le (x y : number) : bool := ge y x.

(** [Math.ceil]. *)
Definition ceil (x : number) : number :=
  match x with
  | Fin z => Fin (- ((- z) / unit) * unit)
  | _ => x
  end.

(** [Math.max(x, y)]. *)
Definition max (x y : number) : number :=
  match x, y with
  | NaN, _ | _, NaN => NaN
  | _, _ => if gt y x then y else x
  end.

(** The number that an array length or a counter denotes. *)
Definition ofNat (n : nat) : number := round (Z.of_nat n * unit) 1.

(** The number written [m / 10^k] in decimal, as [Number] reads it. *)
Definition ofDecimal (m : Z) (k : nat) : number :=
  round (m * unit) (10 ^ Z.of_nat k).

(** Reading a number as an array index: only a non-negative integer
    selects an element, every other key yields [undefined]. *)
Definition toIndex (x : number) : option nat :=
  match x with
  | Fin z => if (0 <=? z) && (z mod unit =? 0)
             then Some (Z.to_nat (z / unit)) else None
  | _ => None
  end.

End Num.

Definition one : number := Num.ofNat 1.

(** ** Arrays *)

Section Arrays.
Context {A : Type}.

(** [arr[x]] for a numeric key [x]. *)
Definition at_index (arr : list A) (x : number) : option A :=
  match Num.toIndex x with
  | Some i => nth_error arr i
  | None => None
  end.

(** [Array.prototype.sort(cmp)].  The language fixes the result for a
    consistent comparator: the elements in comparator order, equal ones in
    their original order.  Insertion from the right computes it: [a] stays
    before [b] unless [cmp(a, b) > 0], a result of [NaN] counting as 0. *)
Fixpoint sort_insert (cmp : A -> A -> number) (x : A) (l : list A) : list A :=
  match l with
  | [] => [x]
  | y :: ys => if Num.gt (cmp x y) (Fin 0)
               then y :: sort_insert cmp x ys
               else x :: y :: ys
  end.

Fixpoint sort (cmp : A -> A -> number) (l : list A) : list A :=
  match l with
  | [] => []
  | x :: xs => sort_insert cmp x (sort cmp xs)
  end.

(** [arr.slice(0, n)] for a count [n]. *)
Definition slice0 (n : nat) (arr : list A) : list A := firstn n arr.

End Arrays.

(** ** The parsed document

    The XML parser is configured with [ignoreAttributes: false], an empty
    attribute prefix and [isArray] for the four element names the analyzer
    reads, so an element is an object whose attributes and children are
    plain properties.  A property that may hold one node or an array of
    nodes is a [field]. *)

Inductive field (A : Type) : Type :=
| Undefined
| Single (a : A)
| Array (l : list A).
Arguments Undefined {A}.
Arguments Single {A} a.
Arguments Array {A} l.

(** A [failure] or [error] node: a bare string when the element has only
    text (the empty string when it has nothing at all), an object with
    the attributes and the text under ["#text"] otherwise. *)
Inductive AnnotNode : Type :=
| AText (s : string)
| AElem (message type text underscore : option string).

(** A [testcase] element.  An absent field is a property that reads
    [undefined]; an element without attributes and children, which the
    parser turns into a string, has them all absent. *)
Module TestCaseNode.
Record t : Type := mk {
  classname : option string;
  class : option string;
  name : option string;
  (** [Number(tc.time)] when the attribute is present: a text that is not
      a numeric literal converts to [NaN]. *)
  time : option number;
  file : option string;
  filename : option string;
  failure : field AnnotNode;
  error : field AnnotNode
}.
End TestCaseNode.

Module SuiteNode.
Record t : Type := mk {
  name : option string;
  file : option string;
  filename : option string;
  (** [Number(suite.time)] when the attribute is present. *)
  time : option number;
  testcase : field TestCaseNode.t
}.
End SuiteNode.

Module Root.
Record t : Type := mk {
  (** [root.testsuites?.testsuite]. *)
  testsuites_testsuite : option (list SuiteNode.t);
  (** [root.testsuite]. *)
  testsuite : field SuiteNode.t
}.
End Root.

(** ** The report *)

Inductive Status : Type := failure | error.

Module FailedTest.
Record t : Type := mk {
  suiteName : option string;
  className : option string;
  testName : string;
  time : option number;
  status : Status;
  message : option string;
  type : option string;
  details : option string;
  file : option string
}.
End FailedTest.

Module SlowTest.
Record t : Type := mk {
  suiteName : option string;
  className : option string;
  testName : string;
  time : number;
  file : option string
}.
End SlowTest.

Module SlowSuite.
Record t : Type := mk {
  suiteName : option string;
  totalTime : number;
  totalTests : Z;
  failedTests : Z;
  file : option string
}.
End SlowSuite.

Module TestStats.
Record t : Type := mk {
  totalSuites : Z;
  failedSuites : Z;
  totalTests : Z;
  failedTests : Z;
  passedTests : Z
}.
End TestStats.

Module JUnitReport.
Record t : Type := mk {
  stats : TestStats.t;
  failed : list FailedTest.t;
  slowTopQuantileTests : list SlowTest.t;
  slowTopQuantileSuites : list SlowSuite.t
}.
End JUnitReport.

(** The two counts are naturals: the tool schema only admits integers from
    1 upwards for them. *)
Module JUnitOptions.
Record t : Type := mk {
  slowTestThresholdSec : number;
  topSlowTests : nat;
  slowSuitesQuantile : number;
  minKeepSuites : nat
}.

Definition default : t :=
  mk (Num.ofNat 5) 20 (Num.ofDecimal 8 1) 1.
End JUnitOptions.

(** ** Small pieces of the language *)

(** [a ?? b]. *)
Definition nullish {A : Type} (a b : option A) : option A :=
  match a with Some _ => a | None => b end.

(** Truthiness of an optional string. *)
Definition truthy_string (s : option string) : bool :=
  match s with
  | Some s => negb (String.eqb s "")
  | None => false
  end.

Definition truthy_annot (n : AnnotNode) : bool :=
  match n with
  | AText s => negb (String.eqb s "")
  | AElem _ _ _ _ => true
  end.

(** [Array.isArray(x) ? x : x ? [x] : []]. *)
Definition toArray {A : Type} (truthy : A -> bool) (x : field A) : list A :=
  match x with
  | Array l => l
  | Single a => if truthy a then [a] else []
  | Undefined => []
  end.

(** ** [quantileInclusive] *)

Definition quantileInclusive (values : list number) (q : number)
  : option number :=
  match values with
  | [] => None
  | _ =>
      let sorted := sort (fun a b => Num.sub a b) values in
      let rank :=
        Num.max one (Num.ceil (Num.mul q (Num.ofNat (List.length sorted)))) in
      at_index sorted (Num.sub rank one)
  end.

(** ** [mostFrequent]

    The [Map] keeps its keys in insertion order; setting a key that is
    already there leaves it in place. *)

Fixpoint map_get (m : list (string * Z)) (k : string) : option Z :=
  match m with
  | [] => None
  | (k', n) :: m' => if String.eqb k' k then Some n else map_get m' k
  end.

Fixpoint map_set (m : list (string * Z)) (k : string) (n : Z)
  : list (string * Z) :=
  match m with
  | [] => [(k, n)]
  | (k', n') :: m' =>
      if String.eqb k' k then (k', n) :: m' else (k', n') :: map_set m' k n
  end.

Definition mostFrequent (items : list (option string)) : option string :=
  let map :=
    fold_left
      (fun map it =>
         match it with
         | Some s =>
             if truthy_string it
             then map_set map s
                    (match map_get map s with Some n => n | None => 0 end + 1)
             else map
         | None => map
         end)
      items [] in
  fst (fold_left
         (fun '(best, bestN) '(k, n) =>
            if bestN <? n then (Some k, n) else (best, bestN))
         map (None, 0)).

(** ** The mutable variables of [getJUnitReportFromXml]

    The first six live for the whole call, the last four are declared anew
    for every suite. *)

Module Vars.
Record t : Type := mk {
  failedSuites : Z;
  totalTests : Z;
  failedTests : Z;
  failed : list FailedTest.t;
  allTimedTests : list SlowTest.t;
  allSuites : list SlowSuite.t;
  suiteFailed : bool;
  suiteFailedCount : Z;
  testcaseFiles : list (option string);
  suiteTimeFromCases : number
}.

Definition set_failedSuites (x : Z) (v : t) : t :=
  mk x (totalTests v) (failedTests v) (failed v) (allTimedTests v)
    (allSuites v) (suiteFailed v) (suiteFailedCount v) (testcaseFiles v)
    (suiteTimeFromCases v).

Definition set_totalTests (x : Z) (v : t) : t :=
  mk (failedSuites v) x (failedTests v) (failed v) (allTimedTests v)
    (allSuites v) (suiteFailed v) (suiteFailedCount v) (testcaseFiles v)
    (suiteTimeFromCases v).

Definition set_failedTests (x : Z) (v : t) : t :=
  mk (failedSuites v) (totalTests v) x (failed v) (allTimedTests v)
    (allSuites v) (suiteFailed v) (suiteFailedCount v) (testcaseFiles v)
    (suiteTimeFromCases v).

Definition set_failed (x : list FailedTest.t) (v : t) : t :=
  mk (failedSuites v) (totalTests v) (failedTests v) x (allTimedTests v)
    (allSuites v) (suiteFailed v) (suiteFailedCount v) (testcaseFiles v)
    (suiteTimeFromCases v).

Definition set_allTimedTests (x : list SlowTest.t) (v : t) : t :=
  mk (failedSuites v) (totalTests v) (failedTests v) (failed v) x
    (allSuites v) (suiteFailed v) (suiteFailedCount v) (testcaseFiles v)
    (suiteTimeFromCases v).

Definition set_allSuites (x : list SlowSuite.t) (v : t) : t :=
  mk (failedSuites v) (totalTests v) (failedTests v) (failed v)
    (allTimedTests v) x (suiteFailed v) (suiteFailedCount v)
    (testcaseFiles v) (suiteTimeFromCases v).

Definition set_suiteFailed (x : bool) (v : t) : t :=
  mk (failedSuites v) (totalTests v) (failedTests v) (failed v)
    (allTimedTests v) (allSuites v) x (suiteFailedCount v) (testcaseFiles v)
    (suiteTimeFromCases v).

Definition set_suiteFailedCount (x : Z) (v : t) : t :=
  mk (failedSuites v) (totalTests v) (failedTests v) (failed v)
    (allTimedTests v) (allSuites v) (suiteFailed v) x (testcaseFiles v)
    (suiteTimeFromCases v).

Definition set_testcaseFiles (x : list (option string)) (v : t) : t :=
  mk (failedSuites v) (totalTests v) (failedTests v) (failed v)
    (allTimedTests v) (allSuites v) (suiteFailed v) (suiteFailedCount v) x
    (suiteTimeFromCases v).

Definition set_suiteTimeFromCases (x : number) (v : t) : t :=
  mk (failedSuites v) (totalTests v) (failedTests v) (failed v)
    (allTimedTests v) (allSuites v) (suiteFailed v) (suiteFailedCount v)
    (testcaseFiles v) x.

Definition init : t := mk 0 0 0 [] [] [] false 0 [] (Fin 0).
End Vars.

(** ** The body of [getJUnitReportFromXml] *)

Section TestCase.
(** What the closure [processNode] captures. *)
Variables (suiteName className : option string) (testName : string)
          (time : option number) (file : option string).

Definition failedEntry (node : AnnotNode) (status : Status) : FailedTest.t :=
  FailedTest.mk suiteName className testName time status
    (match node with AText _ => None | AElem m _ _ _ => m end)
    (match node with AText _ => None | AElem _ ty _ _ => ty end)
    (match node with
     | AText s => Some s
     | AElem _ _ text underscore => nullish text underscore
     end)
    file.

Definition processNode (node : AnnotNode) (status : Status) (v : Vars.t)
  : Vars.t :=
  let v := Vars.set_suiteFailed true v in
  let v := Vars.set_suiteFailedCount (Vars.suiteFailedCount v + 1) v in
  let v := Vars.set_failedTests (Vars.failedTests v + 1) v in
  Vars.set_failed (Vars.failed v ++ [failedEntry node status]) v.
End TestCase.

(** One turn of [for (const tc of testcases)]. *)
Definition testcaseStep (suiteName : option string) (v : Vars.t)
    (tc : TestCaseNode.t) : Vars.t :=
  let className :=
    nullish (TestCaseNode.classname tc) (TestCaseNode.class tc) in
  let testName :=
    match TestCaseNode.name tc with
    | Some n => n
    | None => "(unnamed)"%string
    end in
  let time := TestCaseNode.time tc in
  let file := nullish (TestCaseNode.file tc) (TestCaseNode.filename tc) in
  let v :=
    match time with
    | Some t =>
        if Num.isFinite t then
          let v :=
            Vars.set_allTimedTests
              (Vars.allTimedTests v
                 ++ [SlowTest.mk suiteName className testName t file]) v in
          Vars.set_suiteTimeFromCases (Num.add (Vars.suiteTimeFromCases v) t) v
        else v
    | None => v
    end in
  let v :=
    if truthy_string file
    then Vars.set_testcaseFiles (Vars.testcaseFiles v ++ [file]) v
    else v in
  let failNodes := toArray truthy_annot (TestCaseNode.failure tc) in
  let errNodes := toArray truthy_annot (TestCaseNode.error tc) in
  let process := processNode suiteName className testName time file in
  let v := fold_left (fun v f => process f failure v) failNodes v in
  fold_left (fun v e => process e error v) errNodes v.

Definition testcasesOf (suite : SuiteNode.t) : list TestCaseNode.t :=
  toArray (fun _ => true) (SuiteNode.testcase suite).

(** One turn of [for (const suite of suites)]. *)
Definition suiteStep (v : Vars.t) (suite : SuiteNode.t) : Vars.t :=
  let suiteName := SuiteNode.name suite in
  let suiteFile := nullish (SuiteNode.file suite) (SuiteNode.filename suite) in
  let testcases := testcasesOf suite in
  let v :=
    Vars.set_totalTests
      (Vars.totalTests v + Z.of_nat (List.length testcases)) v in
  let v := Vars.set_suiteFailed false v in
  let v := Vars.set_suiteFailedCount 0 v in
  let v := Vars.set_testcaseFiles [] v in
  let v := Vars.set_suiteTimeFromCases (Fin 0) v in
  let v := fold_left (testcaseStep suiteName) testcases v in
  let v :=
    if Vars.suiteFailed v
    then Vars.set_failedSuites (Vars.failedSuites v + 1) v
    else v in
  let totalTime :=
    match SuiteNode.time suite with
    | Some suiteTimeAttr =>
        if Num.isFinite suiteTimeAttr then suiteTimeAttr
        else Vars.suiteTimeFromCases v
    | None => Vars.suiteTimeFromCases v
    end in
  let resolvedFile := nullish suiteFile (mostFrequent (Vars.testcaseFiles v)) in
  if Num.isFinite totalTime then
    Vars.set_allSuites
      (Vars.allSuites v
         ++ [SlowSuite.mk suiteName totalTime
               (Z.of_nat (List.length testcases))
               (Vars.suiteFailedCount v) resolvedFile]) v
  else v.

(** "Collect testsuites regardless of wrapping": an array is truthy even
    when it is empty. *)
Definition collectSuites (root : Root.t) : list SuiteNode.t :=
  match Root.testsuites_testsuite root with
  | Some wrapped => wrapped
  | None => toArray (fun _ => true) (Root.testsuite root)
  end.

Definition byTimeDesc (a b : SlowTest.t) : number :=
  Num.sub (SlowTest.time b) (SlowTest.time a).

Definition byTotalTimeDesc (a b : SlowSuite.t) : number :=
  Num.sub (SlowSuite.totalTime b) (SlowSuite.totalTime a).

(** "Slow tests: filter by threshold then take top-N". *)
Definition slowTopTests (allTimedTests : list SlowTest.t)
    (slowTestThresholdSec : number) (topSlowTests : nat) : list SlowTest.t :=
  slice0 topSlowTests
    (sort byTimeDesc
       (filter (fun t => Num.gt (SlowTest.time t) slowTestThresholdSec)
          allTimedTests)).

(** The quantile selection as it stands just before the floor rule. *)
Definition quantileSuites (allSuites : list SlowSuite.t)
    (slowSuitesQuantile : number) : list SlowSuite.t :=
  let suiteTimes := map SlowSuite.totalTime allSuites in
  let suiteThresh := quantileInclusive suiteTimes slowSuitesQuantile in
  sort byTotalTimeDesc
    (match suiteThresh with
     | None => []
     | Some th =>
         filter (fun s => Num.ge (SlowSuite.totalTime s) th) allSuites
     end).

(** "Slow suites: quantile method (inclusive nearest-rank)", floor rule
    included. *)
Definition slowSuites (allSuites : list SlowSuite.t)
    (slowSuitesQuantile : number) (minKeepSuites : nat) : list SlowSuite.t :=
  let slowTopQuantileSuites := quantileSuites allSuites slowSuitesQuantile in
  if (List.length slowTopQuantileSuites <? minKeepSuites)%nat
     && negb (List.length allSuites =? 0)%nat
  then slice0 minKeepSuites (sort byTotalTimeDesc allSuites)
  else slowTopQuantileSuites.

(** The variables when [for (const suite of suites)] is over. *)
Definition loopResult (root : Root.t) : Vars.t :=
  fold_left suiteStep (collectSuites root) Vars.init.

(** Everything after [parser.parse(xml)]. *)
Definition analyze (root : Root.t) (opts : JUnitOptions.t) : JUnitReport.t :=
  let suites := collectSuites root in
  let totalSuites := Z.of_nat (List.length suites) in
  let v := loopResult root in
  let passedTests := Vars.totalTests v - Vars.failedTests v in
  JUnitReport.mk
    (TestStats.mk totalSuites (Vars.failedSuites v) (Vars.totalTests v)
       (Vars.failedTests v) passedTests)
    (Vars.failed v)
    (slowTopTests (Vars.allTimedTests v)
       (JUnitOptions.slowTestThresholdSec opts)
       (JUnitOptions.topSlowTests opts))
    (slowSuites (Vars.allSuites v)
       (JUnitOptions.slowSuitesQuantile opts)
       (JUnitOptions.minKeepSuites opts)).

(** A call either returns a value or throws. *)
Inductive outcome (E A : Type) : Type :=
| Returns (a : A)
| Throws (e : E).
Arguments Returns {E A} a.
Arguments Throws {E A} e.

Section Parser.
(** [parser.parse] belongs to the XML library: the analyzer only relies
    on it returning the document object or throwing. *)
Variable ParseError : Type.
Variable parse : string -> outcome ParseError Root.t.

(** No [try] surrounds the call at the top of the function, so what the
    parser throws leaves [getJUnitReportFromXml] unchanged. *)
Definition getJUnitReportFromXml (xml : string) (opts : JUnitOptions.t)
  : outcome ParseError JUnitReport.t :=
  match parse xml with
  | Throws e => Throws e
  | Returns root => Returns (analyze root opts)
  end.
End Parser.

(** ** What each test case and each suite contributes

    The loops are imperative; the definitions below say per test case and
    per suite what they add to each variable, so that the final value of a
    variable can be stated as a sum or a concatenation over the document. *)

Definition failNodesOf (tc : TestCaseNode.t) : list AnnotNode :=
  toArray truthy_annot (TestCaseNode.failure tc).

Definition errNodesOf (tc : TestCaseNode.t) : list AnnotNode :=
  toArray truthy_annot (TestCaseNode.error tc).

(** Number of failure and error annotations of a test case. *)
Definition annotationCount (tc : TestCaseNode.t) : nat :=
  (List.length (failNodesOf tc) + List.length (errNodesOf tc))%nat.

Definition classNameOf (tc : TestCaseNode.t) : option string :=
  nullish (TestCaseNode.classname tc) (TestCaseNode.class tc).

Definition testNameOf (tc : TestCaseNode.t) : string :=
  match TestCaseNode.name tc with Some n => n | None => "(unnamed)"%string end.

Definition fileOf (tc : TestCaseNode.t) : option string :=
  nullish (TestCaseNode.file tc) (TestCaseNode.filename tc).

(** The entries a test case adds to [failed]: failures first, then errors,
    each group in node order. *)
Definition failedOfTestcase (suiteName : option string) (tc : TestCaseNode.t)
  : list FailedTest.t :=
  let entry :=
    failedEntry suiteName (classNameOf tc) (testNameOf tc)
      (TestCaseNode.time tc) (fileOf tc) in
  map (fun n => entry n failure) (failNodesOf tc)
  ++ map (fun n => entry n error) (errNodesOf tc).

Definition failedOfSuite (suite : SuiteNode.t) : list FailedTest.t :=
  flat_map (failedOfTestcase (SuiteNode.name suite)) (testcasesOf suite).

(** The duration of a test case, when its [time] is a finite number. *)
Definition resolvedDuration (tc : TestCaseNode.t) : option number :=
  match TestCaseNode.time tc with
  | Some t => if Num.isFinite t then Some t else None
  | None => None
  end.

Definition timedOfTestcase (suiteName : option string) (tc : TestCaseNode.t)
  : list SlowTest.t :=
  match resolvedDuration tc with
  | Some t =>
      [SlowTest.mk suiteName (classNameOf tc) (testNameOf tc) t (fileOf tc)]
  | None => []
  end.

Definition timedOfSuite (suite : SuiteNode.t) : list SlowTest.t :=
  flat_map (timedOfTestcase (SuiteNode.name suite)) (testcasesOf suite).

(** The slow-test candidate pool, in encounter order. *)
Definition timedTestsOf (root : Root.t) : list SlowTest.t :=
  flat_map timedOfSuite (collectSuites root).

Definition addCaseTime (acc : number) (tc : TestCaseNode.t) : number :=
  match resolvedDuration tc with
  | Some t => Num.add acc t
  | None => acc
  end.

(** [suiteTimeFromCases] once the test cases of a suite are done. *)
Definition caseTimeSum (suite : SuiteNode.t) : number :=
  fold_left addCaseTime (testcasesOf suite) (Fin 0).

Definition suiteTotalTime (suite : SuiteNode.t) : number :=
  match SuiteNode.time suite with
  | Some t => if Num.isFinite t then t else caseTimeSum suite
  | None => caseTimeSum suite
  end.

Definition caseFile (tc : TestCaseNode.t) : list (option string) :=
  if truthy_string (fileOf tc) then [fileOf tc] else [].

(** Number of failure and error annotations in a suite. *)
Definition suiteAnnotations (suite : SuiteNode.t) : nat :=
  list_sum (map annotationCount (testcasesOf suite)).

Definition suiteEntry (suite : SuiteNode.t) : SlowSuite.t :=
  SlowSuite.mk (SuiteNode.name suite) (suiteTotalTime suite)
    (Z.of_nat (List.length (testcasesOf suite)))
    (Z.of_nat (suiteAnnotations suite))
    (nullish (nullish (SuiteNode.file suite) (SuiteNode.filename suite))
       (mostFrequent (flat_map caseFile (testcasesOf suite)))).

Definition candidateOfSuite (suite : SuiteNode.t) : list SlowSuite.t :=
  if Num.isFinite (suiteTotalTime suite) then [suiteEntry suite] else [].

(** The slow-suite candidate pool, in suite order. *)
Definition candidatePool (root : Root.t) : list SlowSuite.t :=
  flat_map candidateOfSuite (collectSuites root).

(** Number of test cases of the document. *)
Definition testcaseCount (root : Root.t) : nat :=
  list_sum (map (fun s => List.length (testcasesOf s)) (collectSuites root)).

(** Number of failure and error annotations of the document. *)
Definition annotationTotal (root : Root.t) : nat :=
  list_sum (map suiteAnnotations (collectSuites root)).

(** Number of test cases that carry at least one failure or error
    annotation: what the specification calls the failed test cases. *)
Definition failingCases (root : Root.t) : nat :=
  list_sum
    (map (fun s =>
            List.length
              (filter (fun tc => (0 <? annotationCount tc)%nat)
                 (testcasesOf s)))
       (collectSuites root)).

(** Number of suites with at least one annotated test case. *)
Definition failingSuites (root : Root.t) : nat :=
  List.length
    (filter (fun s => (0 <? suiteAnnotations s)%nat) (collectSuites root)).

(** [l'] is [l] sorted by decreasing [key], elements of equal key keeping
    the order they have in [l]: whatever selection [p] of elements sharing
    one key is made, it reads the same in [l'] as in [l]. *)
Definition stable_sorted_desc {A : Type} (key : A -> number)
    (l l' : list A) : Prop :=
  Permutation l l'
  /\ StronglySorted (fun a b => Num.ge (key a) (key b) = true) l'
  /\ forall p : A -> bool,
       (forall a b, p a = true -> p b = true -> key a = key b) ->
       filter p l' = filter p l.

(** The same by increasing [key]. *)
Definition stable_sorted_asc {A : Type} (key : A -> number)
    (l l' : list A) : Prop :=
  Permutation l l'
  /\ StronglySorted (fun a b => Num.le (key a) (key b) = true) l'
  /\ forall p : A -> bool,
       (forall a b, p a = true -> p b = true -> key a = key b) ->
       filter p l' = filter p l.


(** [z] units can be held by a binary64 value: a significand of 53 bits
    suffices and the magnitude is below the overflow threshold. *)
Definition representable (z : Z) : Prop :=
  Z.abs z < Num.overflow
  /\ (2 ^ Z.max 0 (Z.log2 (Z.abs z) - 52) | Z.abs z).

(** The units of a finite number. *)
Definition zOf (x : number) : Z :=
  match x with Fin z => z | _ => 0 end.

(** The entry of a test case in the slow-test pool. *)
Definition slowEntry (suite : SuiteNode.t) (tc : TestCaseNode.t)
    (t : number) : SlowTest.t :=
  SlowTest.mk (SuiteNode.name suite) (classNameOf tc) (testNameOf tc) t
    (fileOf tc).

(** ** Sample documents *)

Definition plainCase (name : string) (time : option number)
    (failure error : field AnnotNode) : TestCaseNode.t :=
  TestCaseNode.mk None None (Some name) time None None failure error.

Definition plainSuite (name : string) (time : option number)
    (testcases : list TestCaseNode.t) : SuiteNode.t :=
  SuiteNode.mk (Some name) None None time (Array testcases).

Definition wrapped (suites : list SuiteNode.t) : Root.t :=
  Root.mk (Some suites) Undefined.

(** One test case with a failure and an error:
    [<testsuites><testsuite name="s"><testcase name="t">
       <failure message="m"/><error>boom</error>
     </testcase></testsuite></testsuites>]. *)
Definition doubleAnnotated : Root.t :=
  wrapped
    [plainSuite "s" None
       [plainCase "t" None
          (Array [AElem (Some "m"%string) None None None])
          (Array [AText "boom"])]].

(** A failing test case whose [time] attribute reads [abc]. *)
Definition nanTimed : Root.t :=
  wrapped
    [plainSuite "s" None
       [plainCase "t" (Some NaN)
          (Array [AElem (Some "m"%string) None None None]) Undefined]].

(** A suite without [time] whose two test cases last [1e308] each. *)
Definition overflowing : Root.t :=
  wrapped
    [plainSuite "s" None
       [plainCase "a" (Some (Num.ofDecimal (10 ^ 308) 0)) Undefined Undefined;
        plainCase "b" (Some (Num.ofDecimal (10 ^ 308) 0)) Undefined Undefined]].

(** Five suites that declare the durations 1 to 5. *)
Definition fiveSuites : Root.t :=
  wrapped
    (map (fun n => plainSuite "s" (Some (Num.ofNat n)) [])
       [1; 2; 3; 4; 5]%nat).

(** Two suites of two test cases lasting 1, 6, 2 and 7 seconds, the second
    test case of each suite failing. *)
Definition roundTrip : Root.t :=
  wrapped
    [plainSuite "a" None
       [plainCase "a1" (Some (Num.ofNat 1)) Undefined Undefined;
        plainCase "a2" (Some (Num.ofNat 6))
          (Array [AElem (Some "first"%string) None None None]) Undefined];
     plainSuite "b" None
       [plainCase "b1" (Some (Num.ofNat 2)) Undefined Undefined;
        plainCase "b2" (Some (Num.ofNat 7))
          (Array [AElem (Some "second"%string) None None None]) Undefined]].

(** The slow-suite pool of [fiveSuites]. *)
Definition fivePool : list SlowSuite.t :=
  Vars.allSuites (loopResult fiveSuites).

(** The default policy, keeping at least three suites. *)
Definition keepThree : JUnitOptions.t :=
  JUnitOptions.mk
    (JUnitOptions.slowTestThresholdSec JUnitOptions.default)
    (JUnitOptions.topSlowTests JUnitOptions.default)
    (JUnitOptions.slowSuitesQuantile JUnitOptions.default)
    3.

(** The default policy with another slow-test threshold. *)
Definition withThreshold (t : number) : JUnitOptions.t :=
  JUnitOptions.mk t
    (JUnitOptions.topSlowTests JUnitOptions.default)
    (JUnitOptions.slowSuitesQuantile JUnitOptions.default)
    (JUnitOptions.minKeepSuites JUnitOptions.default).


(** ** [mostFrequent], loop by loop *)

(** How often the string [s] occurs in [items]. *)
Definition occurrences (s : string) (items : list (option string)) : Z :=
  Z.of_nat
    (List.length
       (filter
          (fun it =>
             match it with Some s' => String.eqb s' s | None => false end)
          items)).

(** The two loops of [mostFrequent]. *)
Definition countStep (map : list (string * Z)) (it : option string)
  : list (string * Z) :=
  match it with
  | Some s =>
      if truthy_string it
      then map_set map s
             (match map_get map s with Some n => n | None => 0 end + 1)
      else map
  | None => map
  end.

Definition pickStep (acc : option string * Z) (entry : string * Z)
  : option string * Z :=
  let '(best, bestN) := acc in
  let '(k, n) := entry in
  if bestN <? n then (Some k, n) else (best, bestN).

(** What the map holds once the items [seen] have gone through the first
    loop: the non-empty strings met, each with its number of occurrences,
    in the order in which they were first met. *)
Definition tallies (seen : list (option string)) (m : list (string * Z))
  : Prop :=
  (forall k, map_get m k
             = if (negb (String.eqb k "") && (0 <? occurrences k seen))%bool
               then Some (occurrences k seen) else None)
  /\ NoDup (map fst m)
  /\ forall m1 k m2 k',
       map fst m = m1 ++ k :: m2 -> In k' m2 ->
       exists l1 l2, seen = l1 ++ Some k :: l2 /\ ~ In (Some k') l1.

(** ** [listJUnitXmlPaths]

    A string is the list of its UTF-16 code units.  Regular expressions
    are given by their syntax, restricted to what the source writes, and
    a backtracking matcher. *)

Definition codeUnit : Type := N.

Definition unitOf (c : ascii) : codeUnit := N_of_ascii c.

(** The code units of a string of ASCII characters. *)
Definition unitsOf (s : string) : list codeUnit :=
  map unitOf (list_ascii_of_string s).

Inductive regex : Type :=
| Eps
| Chr (c : codeUnit)
| Dot
| Bol
| Eol
| Seq (r1 r2 : regex)
| Alt (r1 r2 : regex)
| Star (r : regex).

(** What a code unit is compared as under the flag [i], when the
    character of the pattern is ASCII as all those of the source are:
    [a] to [z] compare as [A] to [Z], and a code unit from 128 on never
    compares equal to an ASCII one. *)
Definition upcase (c : codeUnit) : codeUnit :=
  if ((97 <=? c) && (c <=? 122))%N then (c - 32)%N else c.

Definition same_char (ignoreCase : bool) (x c : codeUnit) : bool :=
  if ignoreCase then N.eqb (upcase x) (upcase c) else N.eqb x c.

(** The code units that [.] does not match: the line terminators LF, CR,
    U+2028 and U+2029. *)
Definition lineBreak (c : codeUnit) : bool :=
  N.eqb c 10 || N.eqb c 13 || N.eqb c 8232 || N.eqb c 8233.

(** [regexRun i r atStart s k]: does [r] match a prefix of [s] such that the
    continuation [k] accepts what follows?  [atStart] tells whether [s] is
    the whole input.  An iteration of [*] that consumes nothing is not
    repeated. *)
Fixpoint regexRun (ignoreCase : bool) (r : regex) (atStart : bool)
    (s : list codeUnit) (k : bool -> list codeUnit -> bool) {struct r} : bool :=
  match r with
  | Eps => k atStart s
  | Chr c =>
      match s with
      | x :: s' => same_char ignoreCase x c && k false s'
      | [] => false
      end
  | Dot =>
      match s with
      | x :: s' => negb (lineBreak x) && k false s'
      | [] => false
      end
  | Bol => atStart && k atStart s
  | Eol => match s with [] => k atStart s | _ :: _ => false end
  | Seq r1 r2 =>
      regexRun ignoreCase r1 atStart s
        (fun atStart' s' => regexRun ignoreCase r2 atStart' s' k)
  | Alt r1 r2 =>
      regexRun ignoreCase r1 atStart s k || regexRun ignoreCase r2 atStart s k
  | Star r1 =>
      (fix starLoop (fuel : nat) (atStart : bool) (s : list codeUnit) : bool :=
         match fuel with
         | O => false
         | S fuel' =>
             regexRun ignoreCase r1 atStart s
               (fun atStart' s' =>
                  (List.length s' <? List.length s)%nat
                  && starLoop fuel' atStart' s')
         end
         || k atStart s)
        (List.length s) atStart s
  end.

(** [RegExp.prototype.test] for an expression without the flags [g] and
    [y]: a match may start at any index. *)
Fixpoint regexSearch (ignoreCase : bool) (r : regex) (atStart : bool)
    (s : list codeUnit) : bool :=
  regexRun ignoreCase r atStart s (fun _ _ => true)
  || match s with
     | [] => false
     | _ :: s' => regexSearch ignoreCase r false s'
     end.

Definition regexTest (ignoreCase : bool) (r : regex) (s : list codeUnit)
  : bool :=
  regexSearch ignoreCase r true s.

(** The characters of a literal, one after the other. *)
Definition literal (w : string) : regex :=
  fold_right (fun c r => Seq (Chr c) r) Eps (unitsOf w).

(** The expression of the source, flag [i]: the start of the input or a
    [/]; then [test-] and any characters, or any characters, [junit] and
    any characters; then [.xml] and the end of the input. *)
Definition re : regex :=
  Seq (Alt Bol (Chr (unitOf "/")))
    (Seq (Alt (Seq (literal "test-") (Star Dot))
              (Seq (Star Dot) (Seq (literal "junit") (Star Dot))))
       (Seq (literal ".xml") Eol)).

(** [p.replace(/\\/g, '/')]. *)
Definition normalizeSeparators (p : list codeUnit) : list codeUnit :=
  map (fun c => if N.eqb c (unitOf "\") then unitOf "/" else c) p.

(** "Normalize separators and filter by name patterns". *)
Definition selectJUnitPaths (xmlPaths : list (list codeUnit))
  : list (list codeUnit) :=
  filter (regexTest true re) (map normalizeSeparators xmlPaths).

Section Glob.
(** The glob library: the paths of the [*.xml] files under [cwd], at most
    [deep] levels down, or the error it rejects with. *)
Variable GlobError : Type.
Variable fg :
  list codeUnit -> number -> outcome GlobError (list (list codeUnit)).

Definition listJUnitXmlPaths (cwd : list codeUnit) (maxDepth : number)
  : outcome GlobError (list (list codeUnit)) :=
  match fg cwd maxDepth with
  | Throws e => Throws e
  | Returns xmlPaths => Returns (selectJUnitPaths xmlPaths)
  end.
End Glob.

(** [matches i r b s b' s']: from the input [s] ([b] telling whether it is
    the whole input) the expression [r] can consume characters and leave
    [s']. *)
Inductive matches (i : bool)
  : regex -> bool -> list codeUnit -> bool -> list codeUnit -> Prop :=
| m_eps b s : matches i Eps b s b s
| m_chr c x b s : same_char i x c = true -> matches i (Chr c) b (x :: s) false s
| m_dot x b s : lineBreak x = false -> matches i Dot b (x :: s) false s
| m_bol s : matches i Bol true s true s
| m_eol b : matches i Eol b [] b []
| m_seq r1 r2 b s b1 s1 b2 s2 :
    matches i r1 b s b1 s1 -> matches i r2 b1 s1 b2 s2 ->
    matches i (Seq r1 r2) b s b2 s2
| m_alt_l r1 r2 b s b' s' :
    matches i r1 b s b' s' -> matches i (Alt r1 r2) b s b' s'
| m_alt_r r1 r2 b s b' s' :
    matches i r2 b s b' s' -> matches i (Alt r1 r2) b s b' s'
| m_star_stop r b s : matches i (Star r) b s b s
| m_star_more r b s b1 s1 b2 s2 :
    matches i r b s b1 s1 -> (List.length s1 < List.length s)%nat ->
    matches i (Star r) b1 s1 b2 s2 ->
    matches i (Star r) b s b2 s2.

(** The loop of [Star], on its own. *)
Definition starLoop (i : bool) (r : regex)
    (k : bool -> list codeUnit -> bool)
  : nat -> bool -> list codeUnit -> bool :=
  fix starLoop (fuel : nat) (atStart : bool) (s : list codeUnit) : bool :=
    match fuel with
    | O => false
    | S fuel' =>
        regexRun i r atStart s
          (fun atStart' s' =>
             (List.length s' <? List.length s)%nat
             && starLoop fuel' atStart' s')
    end
    || k atStart s.

(** What is left of the "whole input" flag once [m] is consumed. *)
Definition startAfter (b : bool) (m : list codeUnit) : bool :=
  match m with [] => b | _ :: _ => false end.

(** The continuation [k] accepts what is left after some match of [r]. *)
Definition accepted (i : bool) (r : regex) (b : bool) (s : list codeUnit)
    (k : bool -> list codeUnit -> bool) : Prop :=
  exists b' s', matches i r b s b' s' /\ k b' s' = true.

(** [m] spells the word [w], case ignored when [i] is set. *)
Definition same_word (i : bool) (m : list codeUnit) (w : string) : Prop :=
  Forall2 (fun x c => same_char i x c = true) m (unitsOf w).

(** No line break in [x]. *)
Definition oneLine (x : list codeUnit) : Prop :=
  Forall (fun c => lineBreak c = false) x.

(** Where a match of [re] may start: at the start of the path, or on a
    [/]. *)
Definition segmentStart (pre : list codeUnit) : Prop :=
  pre = [] \/ exists pre', pre = pre' ++ [unitOf "/"].

(** What [re] asks between its start and the extension. *)
Definition nameLike (body : list codeUnit) : Prop :=
  (exists w x, body = w ++ x /\ same_word true w "test-" /\ oneLine x)
  \/ (exists x w y,
        body = x ++ w ++ y /\ same_word true w "junit"
        /\ oneLine x /\ oneLine y).

(** ** Sanity checks of the number model *)

Example add_rounds :
  Num.add (Num.ofDecimal 1 1) (Num.ofDecimal 2 1) <> Num.ofDecimal 3 1
  /\ Num.add (Num.ofDecimal 1 1) (Num.ofDecimal 2 1)
     = Num.ofDecimal 30000000000000004 17.
Proof. split; [ vm_compute; discriminate | vm_compute; reflexivity ]. Qed.

Example add_overflows :
  Num.add (Num.ofDecimal (10 ^ 308) 0) (Num.ofDecimal (10 ^ 308) 0) = PosInf.
Proof. vm_compute. reflexivity. Qed.

Example mul_exact :
  Num.mul (Num.ofDecimal 8 1) (Num.ofNat 5) = Num.ofNat 4.
Proof. vm_compute. reflexivity. Qed.

Example mul_rounds_up :
  Num.ceil (Num.mul (Num.ofDecimal 7 2) (Num.ofNat 100)) = Num.ofNat 8.
Proof. vm_compute. reflexivity. Qed.

(** On a tie [mostFrequent] keeps the string that entered the map first. *)
Example mostFrequent_tie :
  mostFrequent
    [Some "a.ts"; Some "b.ts"; Some "b.ts"; None; Some ""; Some "a.ts"]%string
  = Some "a.ts"%string.
Proof. reflexivity. Qed.

(** What [selectJUnitPaths] keeps of a few paths. *)
Example kept_examples :
  selectJUnitPaths
    [unitsOf "reports\junit.xml"; unitsOf "build/TEST-com.Foo.XML";
     unitsOf "junit-out/coverage.xml"; unitsOf "latest.xml";
     unitsOf "mytest-a.xml"; unitsOf "a/test-b.xml"; unitsOf "junit.xml.bak"]
  = [unitsOf "reports/junit.xml"; unitsOf "build/TEST-com.Foo.XML";
     unitsOf "junit-out/coverage.xml"; unitsOf "a/test-b.xml"].
Proof. vm_compute. reflexivity. Qed.

(** ** Facts about numbers *)

Section RoundFacts.

Lemma unit_pos : 0 < Num.unit.
Proof. unfold Num.unit. apply Z.pow_pos_nonneg; lia. Qed.

(** The significand chosen by [round] lies between the truncated
    quotient and its successor, and is the quotient when nothing is
    cut off. *)
Lemma nearest_bounds (m r d : Z) :
  0 < d -> 0 <= r < d ->
  let m' := match 2 * r ?= d with
            | Lt => m
            | Gt => m + 1
            | Eq => if Z.even m then m else m + 1
            end in
  m <= m' <= m + 1 /\ (r = 0 -> m' = m).
Proof.
  intros Hd Hr m'. subst m'.
  destruct (Z.compare_spec (2 * r) d); destruct (Z.even m); split; try lia.
Qed.

Lemma round_pos (p : Z) :
  0 < p -> Num.gt (Num.round p 1) (Fin 0) = true.
Proof.
  intros Hp. unfold Num.round.
  rewrite (Z.abs_eq p) by lia. rewrite Z.div_1_r.
  set (t := Z.max 0 (Z.log2 p - 52)).
  assert (Ht : 0 <= t) by (subst t; lia).
  assert (Hd : 0 < 2 ^ t) by (apply Z.pow_pos_nonneg; lia).
  assert (Hle : 2 ^ t <= p).
  { subst t. destruct (Z.max_spec 0 (Z.log2 p - 52)) as [[_ ->]|[_ ->]].
    - pose proof (Z.log2_spec p Hp) as [H1 _].
      etransitivity; [|exact H1]. apply Z.pow_le_mono_r; lia.
    - simpl. lia. }
  rewrite Z.mul_1_l.
  pose proof (nearest_bounds (p / 2 ^ t) (p mod 2 ^ t) (2 ^ t) Hd
                (Z.mod_pos_bound p (2 ^ t) Hd)) as [[Hm _] _].
  set (m' := match 2 * (p mod 2 ^ t) ?= 2 ^ t with
             | Lt => _ | Gt => _ | Eq => _ end) in *.
  assert (1 <= p / 2 ^ t) by (apply Z.div_le_lower_bound; lia).
  assert (0 < m' * 2 ^ t) by nia.
  destruct (Num.overflow <=? m' * 2 ^ t).
  - replace (p <? 0) with false by (symmetry; apply Z.ltb_ge; lia).
    reflexivity.
  - rewrite Z.sgn_pos by lia. rewrite Z.mul_1_l. unfold Num.gt.
    apply Z.ltb_lt. lia.
Qed.

Lemma round_opp (p : Z) :
  Num.round (- p) 1 = Num.neg (Num.round p 1).
Proof.
  unfold Num.round. rewrite Z.abs_opp.
  set (v := _ * 2 ^ _).
  destruct (Z.eq_dec p 0) as [->|Hp].
  - simpl. destruct (Num.overflow <=? v); reflexivity.
  - destruct (Num.overflow <=? v).
    + destruct (Z.ltb_spec (- p) 0), (Z.ltb_spec p 0); try reflexivity; lia.
    + rewrite Z.sgn_opp. simpl. f_equal. lia.
Qed.

Lemma round_zero : Num.round 0 1 = Fin 0.
Proof. reflexivity. Qed.

(** The sign of a difference of finite numbers survives rounding. *)
Lemma sub_gt0 (a b : Z) :
  Num.gt (Num.sub (Fin a) (Fin b)) (Fin 0) = (b <? a).
Proof.
  unfold Num.sub, Num.neg, Num.add.
  destruct (Z.ltb_spec b a) as [H|H].
  - apply round_pos. lia.
  - destruct (Z.eq_dec a b) as [->|Hne].
    + replace (b + - b) with 0 by lia. reflexivity.
    + replace (a + - b) with (- (b - a)) by lia. rewrite round_opp.
      pose proof (round_pos (b - a) ltac:(lia)) as Hpos.
      destruct (Num.round (b - a) 1); simpl in *;
        try discriminate; try reflexivity.
      apply Z.ltb_lt in Hpos. apply Z.ltb_ge. lia.
Qed.

Lemma round_representable (z : Z) :
  representable z -> Num.round z 1 = Fin z.
Proof.
  intros [Hov [k Hk]]. unfold Num.round. rewrite Z.div_1_r, Z.mul_1_l.
  set (t := Z.max 0 (Z.log2 (Z.abs z) - 52)) in *.
  assert (Hd : 0 < 2 ^ t) by (apply Z.pow_pos_nonneg; subst t; lia).
  assert (Hr : Z.abs z mod 2 ^ t = 0)
    by (rewrite Hk; apply Z.mod_mul; lia).
  assert (Hm : Z.abs z / 2 ^ t = k)
    by (rewrite Hk; apply Z.div_mul; lia).
  rewrite Hr, Hm, Z.mul_0_r.
  replace (0 ?= 2 ^ t) with Lt by (symmetry; apply Z.compare_lt_iff; lia).
  rewrite <- Hk.
  replace (Num.overflow <=? Z.abs z) with false
    by (symmetry; apply Z.leb_gt; lia).
  f_equal. rewrite Z.mul_comm. apply Z.abs_sgn.
Qed.

Lemma overflow_unit : Num.overflow = 2 ^ 1024 * Num.unit.
Proof.
  unfold Num.overflow, Num.unit. rewrite <- Z.pow_add_r by lia. reflexivity.
Qed.

Lemma representable_nat (n : Z) :
  0 <= n < 2 ^ 53 -> representable (n * Num.unit).
Proof.
  intros Hn. pose proof unit_pos as Hu.
  unfold representable. rewrite Z.abs_eq by nia. split.
  - rewrite overflow_unit. apply Z.mul_lt_mono_pos_r; [lia|].
    assert (2 ^ 53 < 2 ^ 1024) by (apply Z.pow_lt_mono_r; lia). lia.
  - destruct (Z.eq_dec n 0) as [->|Hn0].
    + rewrite Z.mul_0_l. apply Z.divide_0_r.
    + unfold Num.unit at 1. rewrite Z.log2_mul_pow2 by lia.
      assert (Z.log2 n < 53) by (apply Z.log2_lt_pow2; lia).
      pose proof (Z.log2_nonneg n).
      apply Z.divide_mul_r. unfold Num.unit.
      set (t := Z.max 0 (1074 + Z.log2 n - 52)).
      exists (2 ^ (1074 - t)). rewrite <- Z.pow_add_r by (subst t; lia).
      f_equal. lia.
Qed.

(** Rounding never crosses a representable bound. *)
Lemma round_le_representable (p q B : Z) :
  0 <= p -> 0 < q -> p <= B * q -> representable B ->
  exists y, Num.round p q = Fin y /\ 0 <= y <= B.
Proof.
  intros Hp Hq HpB [HBov [kB HkB]].
  assert (HB : 0 <= B) by nia.
  rewrite (Z.abs_eq B) in * by lia.
  unfold Num.round. rewrite (Z.abs_eq p) by lia.
  set (f := p / q).
  set (t := Z.max 0 (Z.log2 f - 52)).
  assert (Ht : 0 <= t) by (subst t; lia).
  assert (H2t : 0 < 2 ^ t) by (apply Z.pow_pos_nonneg; lia).
  assert (Hd : 0 < q * 2 ^ t) by nia.
  pose proof (nearest_bounds (p / (q * 2 ^ t)) (p mod (q * 2 ^ t))
                (q * 2 ^ t) Hd (Z.mod_pos_bound p _ Hd)) as [[Hm1 Hm2] Hm0].
  set (m' := match 2 * (p mod (q * 2 ^ t)) ?= q * 2 ^ t with
             | Lt => _ | Gt => _ | Eq => _ end) in *.
  set (m := p / (q * 2 ^ t)) in *.
  set (r := p mod (q * 2 ^ t)) in *.
  assert (Hpm : p = q * 2 ^ t * m + r) by (apply Z.div_mod; lia).
  assert (Hr : 0 <= r < q * 2 ^ t) by (apply Z.mod_pos_bound; lia).
  assert (Hm : 0 <= m) by (apply Z.div_pos; lia).
  assert (Hf : 0 <= f) by (apply Z.div_pos; lia).
  assert (HfB : f <= B).
  { apply Z.div_le_upper_bound; lia. }
  (* the bound is a multiple of the rounding step *)
  assert (Hdiv : (2 ^ t | B)).
  { subst t. destruct (Z.max_spec 0 (Z.log2 f - 52)) as [[Hlt ->]|[Hlt ->]].
    - assert (Z.log2 f <= Z.log2 B) by (apply Z.log2_le_mono; lia).
      rewrite HkB.
      apply Z.divide_mul_r.
      exists (2 ^ (Z.max 0 (Z.log2 B - 52) - (Z.log2 f - 52))).
      rewrite <- Z.pow_add_r by lia. f_equal. lia.
    - apply Z.divide_1_l. }
  destruct Hdiv as [c Hc].
  assert (Hv : m' * 2 ^ t <= B).
  { destruct (Z.eq_dec r 0) as [Hr0|Hr0].
    - rewrite (Hm0 Hr0). nia.
    - assert (m * 2 ^ t < B) by nia.
      assert (m < c) by nia.
      nia. }
  assert (0 <= m' * 2 ^ t) by nia.
  replace (Num.overflow <=? m' * 2 ^ t) with false
    by (symmetry; apply Z.leb_gt; lia).
  exists (Z.sgn p * (m' * 2 ^ t)). split; [reflexivity|].
  destruct (Z.eq_dec p 0) as [Hp0|Hp0].
  - rewrite Hp0. simpl. lia.
  - rewrite Z.sgn_pos by lia. lia.
Qed.

Lemma ofNat_exact (n : nat) :
  Z.of_nat n < 2 ^ 53 -> Num.ofNat n = Fin (Z.of_nat n * Num.unit).
Proof.
  intros Hn. unfold Num.ofNat. apply round_representable.
  apply representable_nat. lia.
Qed.

Lemma one_exact : one = Fin Num.unit.
Proof.
  unfold one. rewrite ofNat_exact by (simpl; lia).
  change (Z.of_nat 1) with 1. rewrite Z.mul_1_l. reflexivity.
Qed.

Lemma toIndex_ofNat (n : nat) :
  Z.of_nat n < 2 ^ 53 -> Num.toIndex (Num.ofNat n) = Some n.
Proof.
  intros Hn. rewrite ofNat_exact by assumption. pose proof unit_pos.
  unfold Num.toIndex.
  rewrite Z.mod_mul, Z.div_mul, Z.eqb_refl, Nat2Z.id by lia.
  replace (0 <=? Z.of_nat n * Num.unit) with true
    by (symmetry; apply Z.leb_le; nia).
  reflexivity.
Qed.

(** The rank computed by [quantileInclusive] for a quantile between 0 and
    1 is a position of the array. *)
Lemma rank_in_range (zq : Z) (n : nat) :
  0 <= zq <= Num.unit -> (1 <= n)%nat -> Z.of_nat n < 2 ^ 53 ->
  exists rank : nat,
    (1 <= rank <= n)%nat
    /\ Num.max one (Num.ceil (Num.mul (Fin zq) (Num.ofNat n)))
       = Num.ofNat rank
    /\ Num.sub (Num.ofNat rank) one = Num.ofNat (rank - 1).
Proof.
  intros Hq Hn1 Hn. pose proof unit_pos as Hu.
  rewrite (ofNat_exact n Hn), one_exact. unfold Num.mul.
  destruct (round_le_representable (zq * (Z.of_nat n * Num.unit)) Num.unit
              (Z.of_nat n * Num.unit)) as (y & -> & Hy).
  { nia. } { exact Hu. } { nia. } { apply representable_nat. lia. }
  unfold Num.ceil.
  set (c := - (- y / Num.unit)).
  assert (Hc : 0 <= c <= Z.of_nat n).
  { subst c. split.
    - assert (- y / Num.unit <= 0); [|lia].
      apply Z.div_le_upper_bound; lia.
    - assert (- Z.of_nat n <= - y / Num.unit); [|lia].
      apply Z.div_le_lower_bound; lia. }
  exists (Z.to_nat (Z.max 1 c)).
  assert (Hr : Z.of_nat (Z.to_nat (Z.max 1 c)) = Z.max 1 c) by lia.
  split; [lia|].
  rewrite !ofNat_exact by lia.
  rewrite Nat2Z.inj_sub, Hr by lia. change (Z.of_nat 1) with 1.
  split.
  - unfold Num.max, Num.gt.
    destruct (Z.ltb_spec Num.unit (c * Num.unit)); f_equal; nia.
  - unfold Num.sub, Num.neg, Num.add.
    replace (Z.max 1 c * Num.unit + - Num.unit)
      with ((Z.max 1 c - 1) * Num.unit) by lia.
    apply round_representable, representable_nat. lia.
Qed.

End RoundFacts.

(** ** Facts about [sort] *)

Section SortFacts.
Context {A : Type}.
Variable cmp : A -> A -> number.

Lemma sort_insert_perm (x : A) (l : list A) :
  Permutation (x :: l) (sort_insert cmp x l).
Proof.
  induction l as [|y ys IH]; simpl.
  - apply Permutation_refl.
  - destruct (Num.gt (cmp x y) (Fin 0)).
    + eapply perm_trans; [apply perm_swap|]. apply perm_skip, IH.
    + apply Permutation_refl.
Qed.

Lemma sort_perm (l : list A) : Permutation l (sort cmp l).
Proof.
  induction l as [|x xs IH]; simpl.
  - apply perm_nil.
  - eapply perm_trans; [apply perm_skip, IH|]. apply sort_insert_perm.
Qed.

Lemma sort_length (l : list A) : List.length (sort cmp l) = List.length l.
Proof. symmetry. apply Permutation_length, sort_perm. Qed.

Lemma sort_Forall (P : A -> Prop) (l : list A) :
  Forall P l -> Forall P (sort cmp l).
Proof. intros H. eapply Permutation_Forall; [apply sort_perm|exact H]. Qed.

(** The comparator follows an integer rank on the elements that satisfy
    [P]: [x] goes after [y] exactly when its rank is larger. *)
Variable P : A -> Prop.
Variable rank : A -> Z.
Hypothesis cmp_rank :
  forall x y, P x -> P y -> Num.gt (cmp x y) (Fin 0) = (rank y <? rank x).

Let by_rank (a b : A) : Prop := rank a <= rank b.

Lemma sort_insert_sorted (x : A) (l : list A) :
  P x -> Forall P l ->
  StronglySorted by_rank l -> StronglySorted by_rank (sort_insert cmp x l).
Proof.
  intros Px Pl Hs. induction Hs as [|y ys Hs IH Hy]; simpl.
  - constructor; constructor.
  - inversion Pl as [|? ? Py Pys]; subst.
    rewrite (cmp_rank x y Px Py).
    destruct (Z.ltb_spec (rank y) (rank x)) as [Hlt|Hge].
    + constructor; [apply IH, Pys|].
      eapply Permutation_Forall; [apply sort_insert_perm|].
      constructor; [unfold by_rank; lia|exact Hy].
    + constructor; [constructor; assumption|].
      constructor; [exact Hge|].
      eapply Forall_impl; [|exact Hy]. unfold by_rank. intros; lia.
Qed.

Lemma sort_sorted (l : list A) :
  Forall P l -> StronglySorted by_rank (sort cmp l).
Proof.
  induction l as [|x xs IH]; intros Pl; simpl.
  - constructor.
  - inversion Pl; subst.
    apply sort_insert_sorted; auto using sort_Forall.
Qed.

(** A selection of elements of one rank does not see the insertion move
    anything. *)
Lemma filter_sort_insert (p : A -> bool) (x : A) (l : list A) :
  (forall a b, p a = true -> p b = true -> rank a = rank b) ->
  P x -> Forall P l ->
  filter p (sort_insert cmp x l) = filter p (x :: l).
Proof.
  intros Hp Px Pl. induction Pl as [|y ys Py Pys IH]; [reflexivity|].
  simpl sort_insert. rewrite (cmp_rank x y Px Py).
  destruct (Z.ltb_spec (rank y) (rank x)) as [Hlt|Hge]; [|reflexivity].
  simpl. simpl in IH. rewrite IH.
  destruct (p x) eqn:Ex, (p y) eqn:Ey; try reflexivity.
  pose proof (Hp x y Ex Ey). lia.
Qed.

Lemma sort_stable (p : A -> bool) (l : list A) :
  (forall a b, p a = true -> p b = true -> rank a = rank b) ->
  Forall P l -> filter p (sort cmp l) = filter p l.
Proof.
  intros Hp. induction l as [|x xs IH]; intros Pl; [reflexivity|].
  inversion Pl; subst. simpl sort.
  rewrite filter_sort_insert by auto using sort_Forall.
  simpl. rewrite IH by assumption. reflexivity.
Qed.

(** When [p] holds of the elements of small rank only, sorting puts the
    elements of [p] first. *)
Variable p : A -> bool.
Hypothesis p_first :
  forall a b, P a -> P b -> p a = true -> p b = false -> rank a < rank b.

Lemma sort_insert_app (x : A) (l1 l2 : list A) :
  P x -> Forall P l1 -> Forall P l2 ->
  Forall (fun a => p a = true) l1 -> Forall (fun a => p a = false) l2 ->
  sort_insert cmp x (l1 ++ l2)
  = if p x then sort_insert cmp x l1 ++ l2
    else l1 ++ sort_insert cmp x l2.
Proof.
  intros Px P1 P2 H1 H2. induction l1 as [|y ys IH]; simpl.
  - destruct (p x) eqn:Ex; [|reflexivity].
    destruct l2 as [|z zs]; [reflexivity|]. simpl.
    inversion P2; inversion H2; subst.
    rewrite (cmp_rank x z) by assumption.
    pose proof (p_first x z). 
    destruct (Z.ltb_spec (rank z) (rank x)); [|reflexivity].
    assert (rank x < rank z) by auto. lia.
  - inversion P1; inversion H1; subst.
    rewrite (cmp_rank x y) by assumption.
    specialize (IH ltac:(assumption) ltac:(assumption)).
    destruct (p x) eqn:Ex.
    + destruct (Z.ltb_spec (rank y) (rank x)); [|reflexivity].
      simpl. rewrite IH. reflexivity.
    + assert (rank y < rank x) by (apply p_first; assumption).
      destruct (Z.ltb_spec (rank y) (rank x)); [|lia].
      rewrite IH. reflexivity.
Qed.

Lemma sort_split (l : list A) :
  Forall P l ->
  sort cmp l
  = sort cmp (filter p l) ++ sort cmp (filter (fun a => negb (p a)) l).
Proof.
  induction l as [|x xs IH]; intros Pl; [reflexivity|].
  inversion Pl as [|? ? Px Pxs]; subst. simpl sort at 1.
  rewrite (IH Pxs).
  assert (Forall P (filter p xs) /\ Forall P (filter (fun a => negb (p a)) xs))
    as [F1 F2].
  { rewrite !Forall_forall in *. split; intros a Ha;
      apply filter_In in Ha; apply Pxs, Ha. }
  rewrite sort_insert_app; auto using sort_Forall.
  - simpl. destruct (p x); reflexivity.
  - apply sort_Forall, Forall_forall. intros a Ha.
    apply filter_In in Ha. apply Ha.
  - apply sort_Forall, Forall_forall. intros a Ha.
    apply filter_In in Ha. destruct Ha as [_ Ha].
    destruct (p a); [discriminate|reflexivity].
Qed.

End SortFacts.

Section SortByKey.
Context {A : Type}.
Variable key : A -> number.

Let finite (x : A) : Prop := Num.isFinite (key x) = true.

Lemma StronglySorted_weaken (R R' : A -> A -> Prop) (P : A -> Prop)
    (l : list A) :
  (forall a b, P a -> P b -> R a b -> R' a b) ->
  Forall P l -> StronglySorted R l -> StronglySorted R' l.
Proof.
  intros HR Pl Hs. induction Hs as [|x xs Hs IH Hx]; constructor;
    inversion Pl as [|? ? Px Pxs]; subst; auto.
  rewrite Forall_forall in *. intros y Hy. auto.
Qed.

Lemma desc_rank (x y : A) :
  finite x -> finite y ->
  Num.gt (Num.sub (key y) (key x)) (Fin 0)
  = (- zOf (key y) <? - zOf (key x)).
Proof.
  unfold finite. destruct (key x), (key y); try discriminate. intros _ _.
  rewrite sub_gt0. simpl.
  destruct (Z.ltb_spec z z0), (Z.ltb_spec (- z0) (- z)); auto; lia.
Qed.

Lemma asc_rank (x y : A) :
  finite x -> finite y ->
  Num.gt (Num.sub (key x) (key y)) (Fin 0)
  = (zOf (key y) <? zOf (key x)).
Proof.
  unfold finite. destruct (key x), (key y); try discriminate. intros _ _.
  apply sub_gt0.
Qed.

Lemma sort_desc_spec (l : list A) :
  Forall finite l ->
  stable_sorted_desc key l (sort (fun a b => Num.sub (key b) (key a)) l).
Proof.
  intros Hl. split; [apply sort_perm|]. split.
  - eapply (StronglySorted_weaken _ _ finite);
      [| apply sort_Forall, Hl
       | apply (sort_sorted _ finite (fun x => - zOf (key x)) desc_rank), Hl].
    unfold finite. intros a b Ha Hb.
    destruct (key a), (key b); try discriminate. simpl.
    intros H. apply Z.leb_le. lia.
  - intros p Hp.
    apply (sort_stable _ finite (fun x => - zOf (key x)) desc_rank); auto.
    intros a b Ha Hb. rewrite (Hp a b Ha Hb). reflexivity.
Qed.

Lemma sort_asc_spec (l : list A) :
  Forall finite l ->
  stable_sorted_asc key l (sort (fun a b => Num.sub (key a) (key b)) l).
Proof.
  intros Hl. split; [apply sort_perm|]. split.
  - eapply (StronglySorted_weaken _ _ finite);
      [| apply sort_Forall, Hl
       | apply (sort_sorted _ finite (fun x => zOf (key x)) asc_rank), Hl].
    unfold finite. intros a b Ha Hb.
    destruct (key a), (key b); try discriminate. simpl.
    intros H. apply Z.leb_le. lia.
  - intros p Hp.
    apply (sort_stable _ finite (fun x => zOf (key x)) asc_rank); auto.
    intros a b Ha Hb. rewrite (Hp a b Ha Hb). reflexivity.
Qed.

End SortByKey.

(** ** The loops, variable by variable *)

(** Reads the fields of a state that is given by its constructor or by
    setters. *)
Ltac read_vars :=
  cbn [Vars.failedSuites Vars.totalTests Vars.failedTests Vars.failed
       Vars.allTimedTests Vars.allSuites Vars.suiteFailed
       Vars.suiteFailedCount Vars.testcaseFiles Vars.suiteTimeFromCases
       Vars.set_failedSuites Vars.set_totalTests Vars.set_failedTests
       Vars.set_failed Vars.set_allTimedTests Vars.set_allSuites
       Vars.set_suiteFailed Vars.set_suiteFailedCount
       Vars.set_testcaseFiles Vars.set_suiteTimeFromCases].

Lemma processNode_fold (suiteName className : option string)
    (testName : string) (time : option number) (file : option string)
    (status : Status) (nodes : list AnnotNode) (v : Vars.t) :
  fold_left
    (fun v n => processNode suiteName className testName time file n status v)
    nodes v
  = Vars.mk (Vars.failedSuites v) (Vars.totalTests v)
      (Vars.failedTests v + Z.of_nat (List.length nodes))
      (Vars.failed v
         ++ map (fun n => failedEntry suiteName className testName time file
                            n status) nodes)
      (Vars.allTimedTests v) (Vars.allSuites v)
      (Vars.suiteFailed v || (0 <? List.length nodes)%nat)
      (Vars.suiteFailedCount v + Z.of_nat (List.length nodes))
      (Vars.testcaseFiles v) (Vars.suiteTimeFromCases v).
Proof.
  revert v. induction nodes as [|n ns IH]; intros [a b c d e f g h i j].
  - simpl. rewrite !Z.add_0_r, app_nil_r, orb_false_r. reflexivity.
  - cbn [fold_left]. rewrite IH.
    unfold processNode. read_vars. cbn [List.length map].
    rewrite <- app_assoc. cbn [app]. rewrite orb_true_r.
    f_equal; lia.
Qed.

Lemma testcaseStep_spec (suiteName : option string) (v : Vars.t)
    (tc : TestCaseNode.t) :
  testcaseStep suiteName v tc
  = Vars.mk (Vars.failedSuites v) (Vars.totalTests v)
      (Vars.failedTests v + Z.of_nat (annotationCount tc))
      (Vars.failed v ++ failedOfTestcase suiteName tc)
      (Vars.allTimedTests v ++ timedOfTestcase suiteName tc)
      (Vars.allSuites v)
      (Vars.suiteFailed v || (0 <? annotationCount tc)%nat)
      (Vars.suiteFailedCount v + Z.of_nat (annotationCount tc))
      (Vars.testcaseFiles v ++ caseFile tc)
      (addCaseTime (Vars.suiteTimeFromCases v) tc).
Proof.
  unfold testcaseStep. rewrite !processNode_fold.
  unfold failedOfTestcase, timedOfTestcase, addCaseTime, caseFile,
    annotationCount, resolvedDuration.
  fold (classNameOf tc) (testNameOf tc) (fileOf tc)
       (failNodesOf tc) (errNodesOf tc).
  destruct v as [a b c d e f g h i j].
  destruct (TestCaseNode.time tc) as [t|]; [destruct (Num.isFinite t)|];
    destruct (truthy_string (fileOf tc));
    read_vars;
    rewrite ?app_nil_r, <- ?app_assoc, Nat2Z.inj_add;
    f_equal; try lia;
    destruct (List.length (failNodesOf tc)), (List.length (errNodesOf tc));
    simpl; rewrite ?orb_true_r, ?orb_false_r; reflexivity.
Qed.

Lemma list_sum_cons (x : nat) (l : list nat) :
  list_sum (x :: l) = (x + list_sum l)%nat.
Proof. reflexivity. Qed.

Lemma testcases_fold (suiteName : option string)
    (tcs : list TestCaseNode.t) (v : Vars.t) :
  fold_left (testcaseStep suiteName) tcs v
  = Vars.mk (Vars.failedSuites v) (Vars.totalTests v)
      (Vars.failedTests v + Z.of_nat (list_sum (map annotationCount tcs)))
      (Vars.failed v ++ flat_map (failedOfTestcase suiteName) tcs)
      (Vars.allTimedTests v ++ flat_map (timedOfTestcase suiteName) tcs)
      (Vars.allSuites v)
      (Vars.suiteFailed v || (0 <? list_sum (map annotationCount tcs))%nat)
      (Vars.suiteFailedCount v
       + Z.of_nat (list_sum (map annotationCount tcs)))
      (Vars.testcaseFiles v ++ flat_map caseFile tcs)
      (fold_left addCaseTime tcs (Vars.suiteTimeFromCases v)).
Proof.
  revert v. induction tcs as [|tc tcs IH]; intros v.
  - destruct v. simpl. rewrite !Z.add_0_r, !app_nil_r, orb_false_r.
    reflexivity.
  - cbn [fold_left]. rewrite IH, testcaseStep_spec.
    read_vars. cbn [map flat_map].
    rewrite list_sum_cons, <- !app_assoc, Nat2Z.inj_add, <- orb_assoc.
    f_equal; try lia. f_equal.
    destruct (annotationCount tc), (list_sum (map annotationCount tcs));
      reflexivity.
Qed.

Lemma suiteStep_spec (v : Vars.t) (suite : SuiteNode.t) :
  suiteStep v suite
  = Vars.mk
      (Vars.failedSuites v
       + (if (0 <? suiteAnnotations suite)%nat then 1 else 0))
      (Vars.totalTests v + Z.of_nat (List.length (testcasesOf suite)))
      (Vars.failedTests v + Z.of_nat (suiteAnnotations suite))
      (Vars.failed v ++ failedOfSuite suite)
      (Vars.allTimedTests v ++ timedOfSuite suite)
      (Vars.allSuites v ++ candidateOfSuite suite)
      (0 <? suiteAnnotations suite)%nat
      (Z.of_nat (suiteAnnotations suite))
      (flat_map caseFile (testcasesOf suite))
      (caseTimeSum suite).
Proof.
  unfold suiteStep. rewrite testcases_fold.
  unfold candidateOfSuite, suiteEntry, suiteTotalTime, caseTimeSum,
    failedOfSuite, timedOfSuite.
  fold (suiteAnnotations suite).
  destruct v as [a b c d e f g h i j].
  read_vars. cbn [orb app Z.add].
  destruct (0 <? suiteAnnotations suite)%nat;
    read_vars;
    match goal with
    | |- context [Num.isFinite ?t] =>
        match t with
        | match _ with _ => _ end => destruct (Num.isFinite t)
        end
    end;
    read_vars;
    rewrite ?app_nil_r, ?Z.add_0_r; reflexivity.
Qed.

Lemma suites_fold (suites : list SuiteNode.t) (v : Vars.t) :
  let v' := fold_left suiteStep suites v in
  Vars.failedSuites v'
  = Vars.failedSuites v
    + Z.of_nat
        (List.length
           (filter (fun s => (0 <? suiteAnnotations s)%nat) suites))
  /\ Vars.totalTests v'
     = Vars.totalTests v
       + Z.of_nat
           (list_sum (map (fun s => List.length (testcasesOf s)) suites))
  /\ Vars.failedTests v'
     = Vars.failedTests v + Z.of_nat (list_sum (map suiteAnnotations suites))
  /\ Vars.failed v' = Vars.failed v ++ flat_map failedOfSuite suites
  /\ Vars.allTimedTests v'
     = Vars.allTimedTests v ++ flat_map timedOfSuite suites
  /\ Vars.allSuites v' = Vars.allSuites v ++ flat_map candidateOfSuite suites.
Proof.
  revert v. induction suites as [|s ss IH]; intros v.
  - simpl. rewrite !Z.add_0_r, !app_nil_r. repeat split.
  - cbn [fold_left]. specialize (IH (suiteStep v s)).
    cbv zeta in IH |- *.
    destruct IH as (H1 & H2 & H3 & H4 & H5 & H6).
    rewrite H1, H2, H3, H4, H5, H6, suiteStep_spec.
    read_vars. cbn [map flat_map filter].
    rewrite !list_sum_cons, !Nat2Z.inj_add, <- !app_assoc.
    destruct (0 <? suiteAnnotations s)%nat; cbn [List.length];
      repeat split; lia.
Qed.

(** The report in terms of the document alone. *)
Lemma analyze_spec (root : Root.t) (opts : JUnitOptions.t) :
  analyze root opts
  = JUnitReport.mk
      (TestStats.mk
         (Z.of_nat (List.length (collectSuites root)))
         (Z.of_nat (failingSuites root))
         (Z.of_nat (testcaseCount root))
         (Z.of_nat (annotationTotal root))
         (Z.of_nat (testcaseCount root) - Z.of_nat (annotationTotal root)))
      (flat_map failedOfSuite (collectSuites root))
      (slowTopTests (timedTestsOf root)
         (JUnitOptions.slowTestThresholdSec opts)
         (JUnitOptions.topSlowTests opts))
      (slowSuites (candidatePool root)
         (JUnitOptions.slowSuitesQuantile opts)
         (JUnitOptions.minKeepSuites opts)).
Proof.
  unfold analyze, loopResult.
  destruct (suites_fold (collectSuites root) Vars.init)
    as (H1 & H2 & H3 & H4 & H5 & H6).
  rewrite H1, H2, H3, H4, H5, H6. reflexivity.
Qed.

Lemma allSuites_loopResult (root : Root.t) :
  Vars.allSuites (loopResult root) = candidatePool root.
Proof. apply (suites_fold (collectSuites root) Vars.init). Qed.

Lemma allTimedTests_loopResult (root : Root.t) :
  Vars.allTimedTests (loopResult root) = timedTestsOf root.
Proof. apply (suites_fold (collectSuites root) Vars.init). Qed.

(** ** The claims *)

Lemma failedTests_counts_annotations (root : Root.t) (opts : JUnitOptions.t) :
  TestStats.failedTests (JUnitReport.stats (analyze root opts))
  = Z.of_nat (annotationTotal root)
  /\ Z.of_nat (List.length (JUnitReport.failed (analyze root opts)))
     = TestStats.failedTests (JUnitReport.stats (analyze root opts)).
Proof.
  rewrite analyze_spec. cbn [JUnitReport.stats JUnitReport.failed
                             TestStats.failedTests].
  split; [reflexivity|]. f_equal. unfold annotationTotal.
  induction (collectSuites root) as [|s ss IH]; [reflexivity|].
  cbn [flat_map map]. rewrite length_app, list_sum_cons, IH. f_equal.
  unfold failedOfSuite, suiteAnnotations.
  induction (testcasesOf s) as [|tc tcs IHt]; [reflexivity|].
  cbn [flat_map map]. rewrite length_app, list_sum_cons, IHt. f_equal.
  unfold failedOfTestcase, annotationCount.
  rewrite length_app, !length_map. reflexivity.
Qed.

(** C1.  On the document with one test case that carries one failure and
    one error annotation, one test case is failing, [failed] has two
    entries, and yet [stats.failedTests] and the suite's failed count are
    both 2: [processNode] increments the counters once per annotation. *)
Theorem C1_failedTests_double_counted :
  let report := analyze doubleAnnotated JUnitOptions.default in
  failingCases doubleAnnotated = 1%nat
  /\ TestStats.failedTests (JUnitReport.stats report) = 2
  /\ map SlowSuite.failedTests (JUnitReport.slowTopQuantileSuites report) = [2]
  /\ map FailedTest.status (JUnitReport.failed report) = [failure; error]
  /\ map FailedTest.testName (JUnitReport.failed report)
     = ["t"%string; "t"%string].
Proof. vm_compute. repeat split. Qed.

Lemma stats_equation (root : Root.t) (opts : JUnitOptions.t) :
  let stats := JUnitReport.stats (analyze root opts) in
  TestStats.passedTests stats
  = TestStats.totalTests stats - TestStats.failedTests stats
  /\ 0 <= TestStats.failedTests stats
  /\ 0 <= TestStats.totalTests stats.
Proof.
  rewrite analyze_spec. cbn. repeat split; lia.
Qed.

(** C3.  On the same document [passedTests] is negative: one test case,
    two increments of [failedTests], hence [1 - 2]. *)
Theorem C3_passedTests_negative :
  let stats :=
    JUnitReport.stats (analyze doubleAnnotated JUnitOptions.default) in
  TestStats.totalTests stats = 1
  /\ TestStats.failedTests stats = 2
  /\ TestStats.passedTests stats = -1.
Proof. vm_compute. repeat split. Qed.

Section ParserContract.
Variable ParseError : Type.
Variable parse : string -> outcome ParseError Root.t.

(** Which texts are well formed. *)
Variable wellFormed : string -> Prop.

(** Modelled from the spec: the XML library is not part of the sources;
    its [parse] is a parameter, of which the specification says that it
    fails on every text that is not well formed. *)
Hypothesis parse_rejects :
  forall xml, ~ wellFormed xml -> exists e, parse xml = Throws e.

End ParserContract.


(** C8.  [failed] is the concatenation, suite after suite and test case
    after test case, of one entry per failure node followed by one entry
    per error node, each group in node order. *)
Theorem C8_failed_one_entry_per_annotation_in_order
    (root : Root.t) (opts : JUnitOptions.t) :
  JUnitReport.failed (analyze root opts)
  = flat_map
      (fun suite =>
         flat_map
           (fun tc =>
              let entry :=
                failedEntry (SuiteNode.name suite) (classNameOf tc)
                  (testNameOf tc) (TestCaseNode.time tc) (fileOf tc) in
              map (fun n => entry n failure) (failNodesOf tc)
              ++ map (fun n => entry n error) (errNodesOf tc))
           (testcasesOf suite))
      (collectSuites root)
  /\ List.length (JUnitReport.failed (analyze root opts))
     = annotationTotal root.
Proof.
  split.
  - rewrite analyze_spec. reflexivity.
  - apply Nat2Z.inj.
    destruct (failedTests_counts_annotations root opts) as [H1 H2].
    rewrite H2. exact H1.
Qed.

Lemma resolvedDuration_finite (tc : TestCaseNode.t) (t : number) :
  resolvedDuration tc = Some t -> Num.isFinite t = true.
Proof.
  unfold resolvedDuration. destruct (TestCaseNode.time tc) as [t'|];
    [|discriminate].
  destruct (Num.isFinite t') eqn:E; [|discriminate].
  intros H. injection H as <-. exact E.
Qed.

Lemma timedTestsOf_In (root : Root.t) (x : SlowTest.t) :
  In x (timedTestsOf root)
  <-> exists suite tc,
        In suite (collectSuites root) /\ In tc (testcasesOf suite)
        /\ resolvedDuration tc = Some (SlowTest.time x)
        /\ x = slowEntry suite tc (SlowTest.time x).
Proof.
  unfold timedTestsOf, timedOfSuite, timedOfTestcase. split.
  - intros H. apply in_flat_map in H as (suite & Hs & H).
    apply in_flat_map in H as (tc & Htc & H).
    exists suite, tc. destruct (resolvedDuration tc) as [t|]; [|contradiction].
    destruct H as [<-|[]]. repeat split; assumption.
  - intros (suite & tc & Hs & Htc & Hd & Hx).
    apply in_flat_map. exists suite. split; [exact Hs|].
    apply in_flat_map. exists tc. split; [exact Htc|].
    rewrite Hd. left. symmetry. exact Hx.
Qed.

Lemma timedTestsOf_finite (root : Root.t) :
  Forall (fun t => Num.isFinite (SlowTest.time t) = true) (timedTestsOf root).
Proof.
  apply Forall_forall. intros x Hx.
  apply timedTestsOf_In in Hx as (suite & tc & _ & _ & Hd & _).
  eapply resolvedDuration_finite, Hd.
Qed.

Lemma In_firstn {A : Type} (n : nat) (l : list A) (x : A) :
  In x (firstn n l) -> In x l.
Proof.
  intros H. rewrite <- (firstn_skipn n l). apply in_or_app. left. exact H.
Qed.

Lemma Forall_filter {A : Type} (P : A -> Prop) (p : A -> bool) (l : list A) :
  Forall P l -> Forall P (filter p l).
Proof.
  rewrite !Forall_forall. intros H x Hx. apply filter_In in Hx. apply H, Hx.
Qed.

(** C5.  The slow tests are the first [topSlowTests] elements of the list
    that holds exactly the entries of the test cases with a finite duration
    above the threshold, by decreasing duration, ties in encounter order;
    so whatever is selected stems from a test case with such a duration. *)
Theorem C5_slow_tests_selection (root : Root.t) (opts : JUnitOptions.t) :
  let threshold := JUnitOptions.slowTestThresholdSec opts in
  let topN := JUnitOptions.topSlowTests opts in
  let selection := JUnitReport.slowTopQuantileTests (analyze root opts) in
  exists sorted,
    Vars.allTimedTests (loopResult root) = timedTestsOf root
    /\ stable_sorted_desc SlowTest.time
         (filter (fun t => Num.gt (SlowTest.time t) threshold)
            (timedTestsOf root))
         sorted
    /\ (forall x,
          In x sorted
          <-> exists suite tc,
                In suite (collectSuites root) /\ In tc (testcasesOf suite)
                /\ resolvedDuration tc = Some (SlowTest.time x)
                /\ Num.gt (SlowTest.time x) threshold = true
                /\ x = slowEntry suite tc (SlowTest.time x))
    /\ selection = firstn topN sorted
    /\ (List.length selection <= topN)%nat
    /\ forall x, In x selection -> In x sorted.
Proof.
  intros threshold topN selection.
  set (kept := filter (fun t => Num.gt (SlowTest.time t) threshold)
                 (timedTestsOf root)).
  exists (sort byTimeDesc kept).
  assert (Hs : stable_sorted_desc SlowTest.time kept (sort byTimeDesc kept)).
  { apply (sort_desc_spec SlowTest.time).
    apply Forall_filter, timedTestsOf_finite. }
  assert (Hsel : selection = firstn topN (sort byTimeDesc kept)).
  { subst selection. rewrite analyze_spec. reflexivity. }
  split; [apply allTimedTests_loopResult|].
  split; [exact Hs|]. split; [|split; [exact Hsel|split]].
  - intros x. destruct Hs as [Hperm _]. split.
    + intros Hx. apply Permutation_sym in Hperm.
      apply (Permutation_in _ Hperm) in Hx.
      apply filter_In in Hx as [Hx Hgt].
      apply timedTestsOf_In in Hx as (suite & tc & H1 & H2 & H3 & H4).
      exists suite, tc. repeat split; assumption.
    + intros (suite & tc & H1 & H2 & H3 & Hgt & H4).
      apply (Permutation_in _ Hperm). apply filter_In. split; [|exact Hgt].
      apply timedTestsOf_In. exists suite, tc. repeat split; assumption.
  - rewrite Hsel. apply firstn_le_length.
  - intros x. rewrite Hsel. apply In_firstn.
Qed.

Lemma gt_le_trans (x t t' : number) :
  Num.gt x t = true -> Num.le t' t = true -> Num.gt x t' = true.
Proof.
  unfold Num.le.
  destruct x, t, t'; simpl; try discriminate; try reflexivity.
  rewrite !Z.ltb_lt, Z.leb_le. lia.
Qed.

Lemma gt_irrefl (x : number) : Num.gt x x = false.
Proof. destruct x; simpl; try reflexivity. apply Z.ltb_irrefl. Qed.

Lemma filter_absorb {A : Type} (p q : A -> bool) (l : list A) :
  (forall x, p x = true -> q x = true) ->
  filter p (filter q l) = filter p l.
Proof.
  intros Hpq. induction l as [|x xs IH]; [reflexivity|]. simpl.
  destruct (q x) eqn:Eq; simpl; rewrite IH; [reflexivity|].
  destruct (p x) eqn:Ep; [|reflexivity].
  rewrite (Hpq x Ep) in Eq. discriminate.
Qed.

(** Lowering the threshold appends to the selection. *)
Lemma slowTopTests_prefix (l : list SlowTest.t) (t t' : number) (n : nat) :
  Forall (fun x => Num.isFinite (SlowTest.time x) = true) l ->
  Num.le t' t = true ->
  exists more, slowTopTests l t' n = slowTopTests l t n ++ more.
Proof.
  intros Hl Hle. unfold slowTopTests, slice0.
  set (above := fun t x => Num.gt (SlowTest.time x) t).
  change (exists more,
             firstn n (sort byTimeDesc (filter (above t') l))
             = firstn n (sort byTimeDesc (filter (above t) l)) ++ more).
  rewrite <- (filter_absorb (above t) (above t') l)
    by (intros x Hx; exact (gt_le_trans _ _ _ Hx Hle)).
  rewrite (sort_split byTimeDesc
             (fun x => Num.isFinite (SlowTest.time x) = true)
             (fun x => - zOf (SlowTest.time x))
             (desc_rank SlowTest.time) (above t))
    with (l := filter (above t') l).
  - rewrite firstn_app. eexists. reflexivity.
  - intros a b. unfold above.
    destruct (SlowTest.time a), (SlowTest.time b), t;
      simpl; try discriminate.
    intros _ _. rewrite Z.ltb_lt, Z.ltb_ge. lia.
  - apply Forall_filter, Hl.
Qed.

(** C7.  With the same [topSlowTests], the selection for a threshold is a
    prefix of the selection for any lower threshold, so every test selected
    at the higher threshold is still selected, and no selected test has a
    duration equal to the threshold. *)
Theorem C7_lower_threshold_only_adds
    (root : Root.t) (high low : JUnitOptions.t) :
  JUnitOptions.topSlowTests low = JUnitOptions.topSlowTests high ->
  Num.le (JUnitOptions.slowTestThresholdSec low)
    (JUnitOptions.slowTestThresholdSec high) = true ->
  let atHigh := JUnitReport.slowTopQuantileTests (analyze root high) in
  let atLow := JUnitReport.slowTopQuantileTests (analyze root low) in
  (exists more, atLow = atHigh ++ more)
  /\ (forall x, In x atHigh -> In x atLow)
  /\ (forall x,
        In x atHigh ->
        SlowTest.time x <> JUnitOptions.slowTestThresholdSec high)
  /\ (forall x,
        In x atLow ->
        SlowTest.time x <> JUnitOptions.slowTestThresholdSec low).
Proof.
  intros HN Hle atHigh atLow. subst atHigh atLow.
  rewrite !analyze_spec. cbn [JUnitReport.slowTopQuantileTests].
  rewrite HN.
  destruct (slowTopTests_prefix (timedTestsOf root) _ _
              (JUnitOptions.topSlowTests high)
              (timedTestsOf_finite root) Hle) as [more Hmore].
  assert (Hneq : forall t n x,
             In x (slowTopTests (timedTestsOf root) t n) ->
             SlowTest.time x <> t).
  { intros t n x Hx Heq. unfold slowTopTests, slice0 in Hx.
    apply In_firstn in Hx.
    apply (Permutation_in _ (Permutation_sym (sort_perm byTimeDesc _))) in Hx.
    apply filter_In in Hx as [_ Hgt].
    rewrite Heq, gt_irrefl in Hgt. discriminate. }
  split; [exists more; exact Hmore|]. split; [|split].
  - intros x Hx. rewrite Hmore. apply in_or_app. left. exact Hx.
  - intros x. apply Hneq.
  - intros x. apply Hneq.
Qed.

Lemma candidatePool_finite (root : Root.t) :
  Forall (fun s => Num.isFinite (SlowSuite.totalTime s) = true)
    (candidatePool root).
Proof.
  apply Forall_forall. intros x Hx. unfold candidatePool in Hx.
  apply in_flat_map in Hx as (suite & _ & Hx). unfold candidateOfSuite in Hx.
  destruct (Num.isFinite (suiteTotalTime suite)) eqn:E; [|contradiction].
  destruct Hx as [<-|[]]. exact E.
Qed.

Lemma slowSuites_cases (pool : list SlowSuite.t) (q : number) (k : nat) :
  ((List.length (quantileSuites pool q) < k)%nat /\ pool <> []
   /\ slowSuites pool q k = firstn k (sort byTotalTimeDesc pool))
  \/ (((k <= List.length (quantileSuites pool q))%nat \/ pool = [])
      /\ slowSuites pool q k = quantileSuites pool q).
Proof.
  unfold slowSuites, slice0.
  destruct (Nat.ltb_spec (List.length (quantileSuites pool q)) k) as [Hlt|Hge].
  - destruct pool as [|s pool].
    + right. split; [right; reflexivity|reflexivity].
    + left. split; [exact Hlt|]. split; [discriminate|reflexivity].
  - right. split; [left; exact Hge|reflexivity].
Qed.

(** C6.  When the pool is not empty and the quantile keeps fewer than
    [minKeepSuites] suites, the result is the first [minKeepSuites] suites
    of the whole pool by decreasing duration; in every case the result has
    at least [min minKeepSuites (size of the pool)] suites. *)
Theorem C6_floor_rule (root : Root.t) (opts : JUnitOptions.t) :
  let pool := Vars.allSuites (loopResult root) in
  let q := JUnitOptions.slowSuitesQuantile opts in
  let minKeep := JUnitOptions.minKeepSuites opts in
  let result := JUnitReport.slowTopQuantileSuites (analyze root opts) in
  pool <> [] ->
  ((List.length (quantileSuites pool q) < minKeep)%nat ->
   exists sorted,
     stable_sorted_desc SlowSuite.totalTime pool sorted
     /\ result = firstn minKeep sorted)
  /\ (Nat.min minKeep (List.length pool) <= List.length result)%nat.
Proof.
  intros pool.
  assert (Hp : pool = candidatePool root) by apply allSuites_loopResult.
  clearbody pool. subst pool. set (pool := candidatePool root).
  intros q minKeep result Hpool.
  assert (Hres : result = slowSuites pool q minKeep)
    by (subst result; rewrite analyze_spec; reflexivity).
  rewrite Hres.
  destruct (slowSuites_cases pool q minKeep)
    as [(Hlt & _ & ->)|([Hge|Hnil] & ->)].
  - split.
    + intros _. exists (sort byTotalTimeDesc pool). split; [|reflexivity].
      apply (sort_desc_spec SlowSuite.totalTime), candidatePool_finite.
    + rewrite length_firstn, sort_length. lia.
  - split; [lia|lia].
  - contradiction.
Qed.

Lemma quantile_in_range (times : list number) (zq : Z) :
  times <> [] -> Z.of_nat (List.length times) < 2 ^ 53 ->
  0 <= zq <= Num.unit ->
  exists (rank : nat) (th : number),
    Num.max one
      (Num.ceil (Num.mul (Fin zq) (Num.ofNat (List.length times))))
    = Num.ofNat rank
    /\ (1 <= rank <= List.length times)%nat
    /\ nth_error (sort (fun a b => Num.sub a b) times) (rank - 1) = Some th
    /\ quantileInclusive times (Fin zq) = Some th.
Proof.
  intros Hne Hlen Hq.
  assert (Hpos : (1 <= List.length times)%nat)
    by (destruct times; [contradiction|simpl; lia]).
  destruct (rank_in_range zq (List.length times) Hq Hpos Hlen)
    as (rank & Hrank & Hmax & Hsub).
  set (sorted := sort (fun a b => Num.sub a b) times).
  assert (Hsl : List.length sorted = List.length times)
    by apply sort_length.
  destruct (nth_error sorted (rank - 1)) as [th|] eqn:Hnth.
  - exists rank, th. repeat split; try assumption; try lia.
    unfold quantileInclusive. destruct times as [|t ts]; [contradiction|].
    fold sorted. rewrite Hsl, Hmax, Hsub. unfold at_index.
    rewrite toIndex_ofNat by lia. exact Hnth.
  - apply nth_error_None in Hnth. lia.
Qed.

(** C4.  For a non-empty pool and a quantile [q] between 0 and 1, the
    source's [max(1, ceil(q * count))] is a rank between 1 and [count], the
    threshold is the element of that rank (counted from 1) in the durations
    sorted increasingly, and what is kept before the floor rule is exactly
    the suites at or above the threshold, by decreasing duration, ties in
    pool order. *)
Theorem C4_quantile_threshold_and_selection (root : Root.t) (zq : Z) :
  let pool := Vars.allSuites (loopResult root) in
  let count := List.length pool in
  let durations := map SlowSuite.totalTime pool in
  pool <> [] -> Z.of_nat count < 2 ^ 53 -> 0 <= zq <= Num.unit ->
  exists (rank : nat) (threshold : number) (ascending : list number),
    stable_sorted_asc (fun t => t) durations ascending
    /\ Num.max one (Num.ceil (Num.mul (Fin zq) (Num.ofNat count)))
       = Num.ofNat rank
    /\ (1 <= rank <= count)%nat
    /\ nth_error ascending (rank - 1) = Some threshold
    /\ quantileInclusive durations (Fin zq) = Some threshold
    /\ stable_sorted_desc SlowSuite.totalTime
         (filter (fun s => Num.ge (SlowSuite.totalTime s) threshold) pool)
         (quantileSuites pool (Fin zq)).
Proof.
  intros pool.
  assert (Hp : pool = candidatePool root) by apply allSuites_loopResult.
  clearbody pool. subst pool. set (pool := candidatePool root).
  intros count durations Hne Hcount Hq.
  assert (Hd : durations <> [])
    by (subst durations; destruct pool; [contradiction|discriminate]).
  assert (Hlen : List.length durations = count) by apply length_map.
  destruct (quantile_in_range durations zq Hd
              ltac:(rewrite Hlen; exact Hcount) Hq)
    as (rank & th & Hmax & Hrank & Hnth & Hquant).
  exists rank, th, (sort (fun a b => Num.sub a b) durations).
  rewrite Hlen in Hmax, Hrank.
  split; [|split; [exact Hmax|split; [exact Hrank|split; [exact Hnth|]]]].
  - apply (sort_asc_spec (fun t => t)).
    subst durations. apply Forall_map, candidatePool_finite.
  - split; [exact Hquant|].
    unfold quantileSuites. fold durations. rewrite Hquant.
    apply (sort_desc_spec SlowSuite.totalTime).
    apply Forall_filter, candidatePool_finite.
Qed.

Lemma candidatePool_filter (root : Root.t) :
  candidatePool root
  = map suiteEntry
      (filter (fun s => Num.isFinite (suiteTotalTime s)) (collectSuites root)).
Proof.
  unfold candidatePool.
  induction (collectSuites root) as [|s ss IH]; [reflexivity|].
  cbn [flat_map filter]. unfold candidateOfSuite at 1.
  destruct (Num.isFinite (suiteTotalTime s)); cbn [map app];
    rewrite IH; reflexivity.
Qed.

Lemma fold_addCaseTime_none (tcs : list TestCaseNode.t) (acc : number) :
  (forall tc, In tc tcs -> resolvedDuration tc = None) ->
  fold_left addCaseTime tcs acc = acc.
Proof.
  revert acc. induction tcs as [|tc tcs IH]; intros acc H; [reflexivity|].
  cbn [fold_left]. unfold addCaseTime at 2.
  rewrite (H tc (or_introl eq_refl)). apply IH.
  intros tc' Htc'. apply H. right. exact Htc'.
Qed.

Lemma round_not_NaN (p q : Z) : Num.round p q <> NaN.
Proof.
  unfold Num.round.
  match goal with |- context [Num.overflow <=? ?v] =>
    destruct (Num.overflow <=? v) end;
    [destruct (p <? 0)|]; discriminate.
Qed.

(** Adding up finite durations can overflow, it cannot produce [NaN]. *)
Lemma fold_addCaseTime_not_NaN (tcs : list TestCaseNode.t) (acc : number) :
  acc <> NaN -> fold_left addCaseTime tcs acc <> NaN.
Proof.
  revert acc. induction tcs as [|tc tcs IH]; intros acc H; [exact H|].
  cbn [fold_left]. apply IH. unfold addCaseTime.
  destruct (resolvedDuration tc) as [t|] eqn:E; [|exact H].
  apply resolvedDuration_finite in E.
  destruct t; try discriminate.
  destruct acc; simpl; try discriminate; try contradiction.
  apply round_not_NaN.
Qed.

Lemma ge_refl (x : number) : Num.isFinite x = true -> Num.ge x x = true.
Proof. destruct x; try discriminate. intros _. apply Z.leb_refl. Qed.

Lemma sort_not_nil {A : Type} (cmp : A -> A -> number) (l : list A) :
  l <> [] -> sort cmp l <> [].
Proof.
  intros Hl Hs. apply Hl, length_zero_iff_nil.
  rewrite <- (sort_length cmp), Hs. reflexivity.
Qed.

Lemma quantileSuites_not_nil (pool : list SlowSuite.t) (zq : Z) :
  Forall (fun s => Num.isFinite (SlowSuite.totalTime s) = true) pool ->
  pool <> [] -> Z.of_nat (List.length pool) < 2 ^ 53 ->
  0 <= zq <= Num.unit ->
  quantileSuites pool (Fin zq) <> [].
Proof.
  intros Hfin Hne Hlen Hq.
  destruct (quantile_in_range (map SlowSuite.totalTime pool) zq)
    as (rank & th & _ & _ & Hnth & Hquant).
  { destruct pool; [contradiction|discriminate]. }
  { rewrite length_map. exact Hlen. }
  { exact Hq. }
  unfold quantileSuites. rewrite Hquant. apply sort_not_nil.
  apply nth_error_In in Hnth.
  apply (Permutation_in _ (Permutation_sym (sort_perm _ _))) in Hnth.
  apply in_map_iff in Hnth as (s & Hs & Hin).
  intros Hnil.
  assert (Hs' : In s (filter (fun s => Num.ge (SlowSuite.totalTime s) th)
                        pool)).
  { apply filter_In. split; [exact Hin|]. rewrite Hs. apply ge_refl.
    rewrite <- Hs. rewrite Forall_forall in Hfin. apply Hfin, Hin. }
  rewrite Hnil in Hs'. contradiction.
Qed.

(** C10, as the code has it.  The pool holds the suites whose resolved
    duration is finite, in suite order.  A suite with no finite [time] and
    no finite test-case duration resolves to 0 and is in the pool; a suite
    is left out only when it has no finite [time] and the sum of its
    test-case durations is an infinity.  With [minKeepSuites >= 1], or a
    quantile between 0 and 1, a non-empty pool gives a non-empty result. *)
Theorem C10_suites_with_finite_duration_are_candidates
    (root : Root.t) (opts : JUnitOptions.t) :
  let pool := Vars.allSuites (loopResult root) in
  let noFiniteTime (suite : SuiteNode.t) :=
    match SuiteNode.time suite with
    | Some t => Num.isFinite t = false
    | None => True
    end in
  pool
  = map suiteEntry
      (filter (fun s => Num.isFinite (suiteTotalTime s)) (collectSuites root))
  /\ (forall suite,
        noFiniteTime suite ->
        (forall tc, In tc (testcasesOf suite) -> resolvedDuration tc = None) ->
        suiteTotalTime suite = Fin 0
        /\ candidateOfSuite suite = [suiteEntry suite])
  /\ (forall suite,
        candidateOfSuite suite = [] ->
        noFiniteTime suite
        /\ (caseTimeSum suite = PosInf \/ caseTimeSum suite = NegInf))
  /\ (pool <> [] ->
      (1 <= JUnitOptions.minKeepSuites opts)%nat
      \/ (exists zq,
            JUnitOptions.slowSuitesQuantile opts = Fin zq
            /\ 0 <= zq <= Num.unit
            /\ Z.of_nat (List.length pool) < 2 ^ 53) ->
      JUnitReport.slowTopQuantileSuites (analyze root opts) <> []).
Proof.
  intros pool.
  assert (Hp : pool = candidatePool root) by apply allSuites_loopResult.
  clearbody pool. subst pool. set (pool := candidatePool root).
  intros noFiniteTime. split; [apply candidatePool_filter|].
  split; [|split].
  - intros suite Htime Hcases.
    assert (Hsum : caseTimeSum suite = Fin 0)
      by (apply fold_addCaseTime_none, Hcases).
    assert (Htotal : suiteTotalTime suite = Fin 0).
    { unfold suiteTotalTime. unfold noFiniteTime in Htime.
      destruct (SuiteNode.time suite) as [t|]; [rewrite Htime|]; exact Hsum. }
    split; [exact Htotal|]. unfold candidateOfSuite. rewrite Htotal.
    reflexivity.
  - intros suite Hout. unfold candidateOfSuite in Hout.
    destruct (Num.isFinite (suiteTotalTime suite)) eqn:E; [discriminate|].
    unfold suiteTotalTime in E. unfold noFiniteTime.
    assert (Hsum : Num.isFinite (caseTimeSum suite) = false ->
                   caseTimeSum suite = PosInf \/ caseTimeSum suite = NegInf).
    { pose proof (fold_addCaseTime_not_NaN (testcasesOf suite) (Fin 0)
                    ltac:(discriminate)) as Hnan.
      fold (caseTimeSum suite) in Hnan.
      destruct (caseTimeSum suite); auto; try discriminate. contradiction. }
    destruct (SuiteNode.time suite) as [t|].
    + destruct (Num.isFinite t) eqn:Et.
      * rewrite Et in E. discriminate.
      * split; [reflexivity|apply Hsum, E].
    + split; [exact I|apply Hsum, E].
  - intros Hpool Hpolicy. rewrite analyze_spec.
    cbn [JUnitReport.slowTopQuantileSuites]. fold pool.
    destruct (slowSuites_cases pool (JUnitOptions.slowSuitesQuantile opts)
                (JUnitOptions.minKeepSuites opts))
      as [(Hlt & _ & ->)|([Hge|Hnil] & ->)]; [| |contradiction].
    + intros Hnil. apply (f_equal (@List.length _)) in Hnil.
      rewrite length_firstn, sort_length in Hnil.
      destruct pool; [contradiction|]. simpl in Hnil. lia.
    + destruct Hpolicy as [Hk|(zq & Hq & Hzq & Hlen)].
      * intros Hnil. rewrite Hnil in Hge. simpl in Hge. lia.
      * rewrite Hq. apply quantileSuites_not_nil; auto.
        apply candidatePool_finite.
Qed.

Lemma fold_addCaseTime_resolved (tcs : list TestCaseNode.t) (acc : number) :
  fold_left addCaseTime tcs acc
  = fold_left Num.add
      (flat_map
         (fun tc =>
            match resolvedDuration tc with Some d => [d] | None => [] end)
         tcs)
      acc.
Proof.
  revert acc. induction tcs as [|tc tcs IH]; intros acc; [reflexivity|].
  cbn [fold_left flat_map]. rewrite fold_left_app, IH.
  unfold addCaseTime. destruct (resolvedDuration tc); reflexivity.
Qed.

Lemma failedOfTestcase_In (root : Root.t) (suite : SuiteNode.t)
    (tc : TestCaseNode.t) (e : FailedTest.t) :
  In suite (collectSuites root) -> In tc (testcasesOf suite) ->
  In e (failedOfTestcase (SuiteNode.name suite) tc) ->
  In e (flat_map failedOfSuite (collectSuites root)).
Proof.
  intros Hs Htc He. apply in_flat_map. exists suite. split; [exact Hs|].
  apply in_flat_map. exists tc. split; assumption.
Qed.

Lemma failedOfTestcase_time (suiteName : option string)
    (tc : TestCaseNode.t) (e : FailedTest.t) :
  In e (failedOfTestcase suiteName tc) ->
  FailedTest.time e = TestCaseNode.time tc.
Proof.
  unfold failedOfTestcase. intros He.
  apply in_app_or in He as [He|He];
    apply in_map_iff in He as (n & <- & _); reflexivity.
Qed.

(** C9, as the code has it.  A test case whose [time] converts to [NaN] or
    to an infinity does not make the analysis throw.  Its turn of the loop
    leaves [allTimedTests] and [suiteTimeFromCases] as they were, so it is
    not in the slow-test pool and the sum of its suite ranges over the
    finite durations only.  It is counted in [totalTests]; each of its
    annotations yields an entry of [failed], and that entry carries the
    converted value as its [time]. *)
Theorem C9_non_finite_time
    (root : Root.t) (opts : JUnitOptions.t)
    (suite : SuiteNode.t) (tc : TestCaseNode.t) (t : number) :
  In suite (collectSuites root) -> In tc (testcasesOf suite) ->
  TestCaseNode.time tc = Some t -> Num.isFinite t = false ->
  let report := analyze root opts in
  let suiteName := SuiteNode.name suite in
  (forall (E : Type) (parse : string -> outcome E Root.t) (xml : string),
      parse xml = Returns root ->
      getJUnitReportFromXml E parse xml opts = Returns report)
  /\ (forall v,
        let v' := testcaseStep suiteName v tc in
        Vars.allTimedTests v' = Vars.allTimedTests v
        /\ Vars.suiteTimeFromCases v' = Vars.suiteTimeFromCases v
        /\ Vars.failed v' = Vars.failed v ++ failedOfTestcase suiteName tc)
  /\ (forall x,
        In x (Vars.allTimedTests (loopResult root))
        \/ In x (JUnitReport.slowTopQuantileTests report) ->
        SlowTest.time x <> t)
  /\ (forall v,
        Vars.suiteTimeFromCases
          (fold_left (testcaseStep suiteName) (testcasesOf suite) v)
        = fold_left Num.add
            (flat_map
               (fun tc' =>
                  match resolvedDuration tc' with
                  | Some d => [d]
                  | None => []
                  end)
               (testcasesOf suite))
            (Vars.suiteTimeFromCases v))
  /\ resolvedDuration tc = None
  /\ TestStats.totalTests (JUnitReport.stats report)
     = Z.of_nat (testcaseCount root)
  /\ List.length (failedOfTestcase suiteName tc) = annotationCount tc
  /\ forall e,
       In e (failedOfTestcase suiteName tc) ->
       In e (JUnitReport.failed report) /\ FailedTest.time e = Some t.
Proof.
  intros Hs Htc Htime Hfin report suiteName.
  assert (Hres : resolvedDuration tc = None)
    by (unfold resolvedDuration; rewrite Htime, Hfin; reflexivity).
  assert (Hpool : forall x, In x (timedTestsOf root) -> SlowTest.time x <> t).
  { intros x Hx Heq. pose proof (timedTestsOf_finite root) as Hall.
    rewrite Forall_forall in Hall. apply Hall in Hx.
    rewrite Heq, Hfin in Hx. discriminate. }
  split.
  { intros E parse xml Hparse. unfold getJUnitReportFromXml.
    rewrite Hparse. reflexivity. }
  split.
  { intros v v'. subst v'. rewrite testcaseStep_spec. read_vars.
    unfold timedOfTestcase, addCaseTime. rewrite Hres, app_nil_r.
    repeat split. }
  subst report. rewrite analyze_spec, allTimedTests_loopResult.
  cbn [JUnitReport.slowTopQuantileTests JUnitReport.stats JUnitReport.failed
       TestStats.totalTests].
  split.
  { intros x [Hx|Hx]; [exact (Hpool x Hx)|]. apply Hpool.
    unfold slowTopTests, slice0 in Hx. apply In_firstn in Hx.
    apply (Permutation_in _ (Permutation_sym (sort_perm byTimeDesc _))) in Hx.
    apply filter_In in Hx. apply Hx. }
  split.
  { intros v. rewrite testcases_fold. read_vars.
    apply fold_addCaseTime_resolved. }
  split; [exact Hres|]. split; [reflexivity|]. split.
  { unfold failedOfTestcase, annotationCount.
    rewrite length_app, !length_map. reflexivity. }
  intros e He. split.
  - eapply failedOfTestcase_In; eassumption.
  - rewrite (failedOfTestcase_time _ _ _ He). exact Htime.
Qed.

(** C9 as stated fails: the entry of the failing test case whose [time]
    reads [abc] has [NaN] as its [time], not an absent one. *)
Lemma C9_time_of_failed_entry_is_not_absent :
  map FailedTest.time
    (JUnitReport.failed (analyze nanTimed JUnitOptions.default))
  = [Some NaN]
  /\ ~ (forall e,
          In e (JUnitReport.failed (analyze nanTimed JUnitOptions.default)) ->
          FailedTest.time e = None).
Proof.
  split; [reflexivity|].
  intros H. specialize (H _ (or_introl eq_refl)). discriminate.
Qed.

(** C10 as stated fails: the only suite of the document is not a
    candidate, the sum of its two durations being infinite, and the
    slow-suite list is empty. *)
Lemma C10_overflowing_suite_is_dropped :
  List.length (collectSuites overflowing) = 1%nat
  /\ map suiteTotalTime (collectSuites overflowing) = [PosInf]
  /\ Vars.allSuites (loopResult overflowing) = []
  /\ JUnitReport.slowTopQuantileSuites
       (analyze overflowing JUnitOptions.default) = [].
Proof. vm_compute. repeat split. Qed.

(** ** The claims on sample documents *)

(** The scenario with two suites and durations 1, 6, 2 and 7: the slow
    tests are the 7 and 6 second ones in that order, two tests failed. *)
Example roundTrip_report :
  let report := analyze roundTrip JUnitOptions.default in
  map SlowTest.time (JUnitReport.slowTopQuantileTests report)
  = [Num.ofNat 7; Num.ofNat 6]
  /\ TestStats.failedTests (JUnitReport.stats report) = 2
  /\ map FailedTest.message (JUnitReport.failed report)
     = [Some "first"%string; Some "second"%string].
Proof. vm_compute. repeat split. Qed.

Lemma C4_witness :
  (fivePool <> []
   /\ Z.of_nat (List.length fivePool) < 2 ^ 53
   /\ 0 <= zOf (Num.ofDecimal 8 1) <= Num.unit)
  /\ (exists (rank : nat) (threshold : number) (ascending : list number),
        stable_sorted_asc (fun t => t)
          (map SlowSuite.totalTime fivePool) ascending
        /\ Num.max one
             (Num.ceil
                (Num.mul (Fin (zOf (Num.ofDecimal 8 1)))
                   (Num.ofNat (List.length fivePool))))
           = Num.ofNat rank
        /\ (1 <= rank <= List.length fivePool)%nat
        /\ nth_error ascending (rank - 1) = Some threshold
        /\ quantileInclusive (map SlowSuite.totalTime fivePool)
             (Fin (zOf (Num.ofDecimal 8 1)))
           = Some threshold
        /\ stable_sorted_desc SlowSuite.totalTime
             (filter
                (fun s => Num.ge (SlowSuite.totalTime s) threshold)
                fivePool)
             (quantileSuites fivePool (Fin (zOf (Num.ofDecimal 8 1)))))
  /\ (map SlowSuite.totalTime fivePool = map Num.ofNat [1; 2; 3; 4; 5]%nat
      /\ Num.max one (Num.ceil (Num.mul (Num.ofDecimal 8 1) (Num.ofNat 5)))
         = Num.ofNat 4
      /\ quantileInclusive (map SlowSuite.totalTime fivePool)
           (Num.ofDecimal 8 1)
         = Some (Num.ofNat 4)
      /\ map SlowSuite.totalTime
           (quantileSuites fivePool (Num.ofDecimal 8 1))
         = [Num.ofNat 5; Num.ofNat 4]).
Proof.
  unfold fivePool.
  assert (H1 : Vars.allSuites (loopResult fiveSuites) <> [])
    by (vm_compute; discriminate).
  assert (H2 : Z.of_nat (List.length (Vars.allSuites (loopResult fiveSuites)))
               < 2 ^ 53)
    by (vm_compute; reflexivity).
  assert (H3 : 0 <= zOf (Num.ofDecimal 8 1) <= Num.unit)
    by (split; vm_compute; discriminate).
  split; [exact (conj H1 (conj H2 H3))|]. split.
  - exact (C4_quantile_threshold_and_selection fiveSuites
             (zOf (Num.ofDecimal 8 1)) H1 H2 H3).
  - vm_compute. repeat split.
Defined.

Lemma C6_witness :
  (fivePool <> []
   /\ (List.length
         (quantileSuites fivePool (JUnitOptions.slowSuitesQuantile keepThree))
       < JUnitOptions.minKeepSuites keepThree)%nat)
  /\ (exists sorted,
        stable_sorted_desc SlowSuite.totalTime fivePool sorted
        /\ JUnitReport.slowTopQuantileSuites (analyze fiveSuites keepThree)
           = firstn (JUnitOptions.minKeepSuites keepThree) sorted)
  /\ (Nat.min (JUnitOptions.minKeepSuites keepThree) (List.length fivePool)
      <= List.length
           (JUnitReport.slowTopQuantileSuites
              (analyze fiveSuites keepThree)))%nat
  /\ map SlowSuite.totalTime
       (JUnitReport.slowTopQuantileSuites (analyze fiveSuites keepThree))
     = [Num.ofNat 5; Num.ofNat 4; Num.ofNat 3].
Proof.
  unfold fivePool.
  assert (H1 : Vars.allSuites (loopResult fiveSuites) <> [])
    by (vm_compute; discriminate).
  assert (H2 : (List.length
                  (quantileSuites (Vars.allSuites (loopResult fiveSuites))
                     (JUnitOptions.slowSuitesQuantile keepThree))
                < JUnitOptions.minKeepSuites keepThree)%nat)
    by (vm_compute; apply le_n).
  pose proof (C6_floor_rule fiveSuites keepThree H1) as [Hfloor Hlen].
  split; [exact (conj H1 H2)|].
  split; [exact (Hfloor H2)|].
  split; [exact Hlen|].
  vm_compute. reflexivity.
Defined.

Lemma C7_witness :
  exists more,
    JUnitReport.slowTopQuantileTests
      (analyze roundTrip (withThreshold (Num.ofDecimal 15 1)))
    = JUnitReport.slowTopQuantileTests
        (analyze roundTrip (withThreshold (Num.ofNat 5)))
      ++ more.
Proof.
  assert (Hle : Num.le (Num.ofDecimal 15 1) (Num.ofNat 5) = true)
    by (vm_compute; reflexivity).
  exact (proj1 (C7_lower_threshold_only_adds roundTrip
                  (withThreshold (Num.ofNat 5))
                  (withThreshold (Num.ofDecimal 15 1))
                  eq_refl Hle)).
Defined.

Lemma C9_witness :
  let tc :=
    plainCase "t" (Some NaN)
      (Array [AElem (Some "m"%string) None None None]) Undefined in
  (TestCaseNode.time tc = Some NaN /\ Num.isFinite NaN = false)
  /\ resolvedDuration tc = None
  /\ forall e,
       In e (failedOfTestcase (Some "s"%string) tc) ->
       In e (JUnitReport.failed (analyze nanTimed JUnitOptions.default))
       /\ FailedTest.time e = Some NaN.
Proof.
  pose proof
    (C9_non_finite_time nanTimed JUnitOptions.default
       (plainSuite "s" None
          [plainCase "t" (Some NaN)
             (Array [AElem (Some "m"%string) None None None]) Undefined])
       (plainCase "t" (Some NaN)
          (Array [AElem (Some "m"%string) None None None]) Undefined)
       NaN (or_introl eq_refl) (or_introl eq_refl) eq_refl eq_refl)
    as (_ & _ & _ & _ & Hres & _ & _ & H).
  exact (conj (conj eq_refl eq_refl) (conj Hres H)).
Defined.

Lemma C10_witness :
  fivePool <> []
  /\ JUnitReport.slowTopQuantileSuites
       (analyze fiveSuites JUnitOptions.default)
     <> [].
Proof.
  unfold fivePool.
  assert (Hpool : Vars.allSuites (loopResult fiveSuites) <> [])
    by (vm_compute; discriminate).
  pose proof
    (C10_suites_with_finite_duration_are_candidates fiveSuites
       JUnitOptions.default) as (_ & _ & _ & H).
  exact (conj Hpool (H Hpool (or_introl (le_n 1)))).
Defined.

(** * Further properties

    What follows covers the rest of [junit.ts]: the edge cases of
    [quantileInclusive], [mostFrequent], the invariants of the report and
    the selection of paths in [listJUnitXmlPaths]. *)

(** ** More about rounding *)

Section MoreRoundFacts.

Lemma round_zero_any (q : Z) : 0 < q -> Num.round 0 q = Fin 0.
Proof.
  intros Hq. unfold Num.round. change (Z.abs 0) with 0.
  rewrite Z.div_0_l by lia. change (Z.max 0 (Z.log2 0 - 52)) with 0.
  change (2 ^ 0) with 1. rewrite Z.mul_1_r, Z.div_0_l, Z.mod_0_l by lia.
  replace (2 * 0 ?= q * 1) with Lt
    by (symmetry; apply Z.compare_lt_iff; lia).
  reflexivity.
Qed.

Lemma round_opp_any (p q : Z) :
  0 < q -> Num.round (- p) q = Num.neg (Num.round p q).
Proof.
  intros Hq. destruct (Z.eq_dec p 0) as [->|Hp].
  - change (- 0) with 0. rewrite round_zero_any by assumption. reflexivity.
  - unfold Num.round. rewrite Z.abs_opp.
    set (v := _ * 2 ^ _).
    destruct (Num.overflow <=? v).
    + destruct (Z.ltb_spec (- p) 0), (Z.ltb_spec p 0); try reflexivity; lia.
    + rewrite Z.sgn_opp. simpl. f_equal. lia.
Qed.

(** Rounding a non-negative quantity gives a non-negative number or
    [+Infinity]. *)
Lemma round_nonneg (p q : Z) :
  0 <= p -> 0 < q ->
  Num.round p q = PosInf \/ exists y, Num.round p q = Fin y /\ 0 <= y.
Proof.
  intros Hp Hq. unfold Num.round. rewrite (Z.abs_eq p) by lia.
  set (t := Z.max 0 (Z.log2 (p / q) - 52)).
  assert (H2t : 0 < 2 ^ t) by (apply Z.pow_pos_nonneg; subst t; lia).
  assert (Hd : 0 < q * 2 ^ t) by nia.
  pose proof (nearest_bounds (p / (q * 2 ^ t)) (p mod (q * 2 ^ t))
                (q * 2 ^ t) Hd (Z.mod_pos_bound p _ Hd)) as [[Hm1 _] _].
  set (m' := match 2 * (p mod (q * 2 ^ t)) ?= q * 2 ^ t with
             | Lt => _ | Gt => _ | Eq => _ end) in *.
  assert (0 <= p / (q * 2 ^ t)) by (apply Z.div_pos; lia).
  destruct (Num.overflow <=? m' * 2 ^ t).
  - left. replace (p <? 0) with false by (symmetry; apply Z.ltb_ge; lia).
    reflexivity.
  - right. eexists. split; [reflexivity|].
    destruct (Z.eq_dec p 0) as [->|]; [simpl; lia|].
    rewrite Z.sgn_pos by lia. nia.
Qed.

(** Rounding is monotone. *)
Lemma round_mono (p p' q : Z) :
  0 <= p <= p' -> 0 < q ->
  Num.le (Num.round p q) (Num.round p' q) = true.
Proof.
  intros Hp Hq. unfold Num.round.
  rewrite (Z.abs_eq p), (Z.abs_eq p') by lia.
  set (f := p / q). set (f' := p' / q).
  set (t := Z.max 0 (Z.log2 f - 52)). set (t' := Z.max 0 (Z.log2 f' - 52)).
  assert (Hf : 0 <= f) by (apply Z.div_pos; lia).
  assert (Hff : f <= f') by (apply Z.div_le_mono; lia).
  assert (Htt : 0 <= t <= t').
  { subst t t'. pose proof (Z.log2_le_mono f f' Hff). lia. }
  assert (H2t : 0 < 2 ^ t) by (apply Z.pow_pos_nonneg; lia).
  assert (H2t' : 0 < 2 ^ t') by (apply Z.pow_pos_nonneg; lia).
  assert (Hd : 0 < q * 2 ^ t) by nia.
  assert (Hd' : 0 < q * 2 ^ t') by nia.
  pose proof (nearest_bounds (p / (q * 2 ^ t)) (p mod (q * 2 ^ t))
                (q * 2 ^ t) Hd (Z.mod_pos_bound p _ Hd)) as [Hm Hm0].
  pose proof (nearest_bounds (p' / (q * 2 ^ t')) (p' mod (q * 2 ^ t'))
                (q * 2 ^ t') Hd' (Z.mod_pos_bound p' _ Hd')) as [Hm' _].
  assert (Hv :
    match 2 * (p mod (q * 2 ^ t)) ?= q * 2 ^ t with
    | Lt => p / (q * 2 ^ t)
    | Gt => p / (q * 2 ^ t) + 1
    | Eq => if Z.even (p / (q * 2 ^ t)) then p / (q * 2 ^ t)
            else p / (q * 2 ^ t) + 1
    end * 2 ^ t
    <= match 2 * (p' mod (q * 2 ^ t')) ?= q * 2 ^ t' with
       | Lt => p' / (q * 2 ^ t')
       | Gt => p' / (q * 2 ^ t') + 1
       | Eq => if Z.even (p' / (q * 2 ^ t')) then p' / (q * 2 ^ t')
               else p' / (q * 2 ^ t') + 1
       end * 2 ^ t').
  { destruct (Z.eq_dec t t') as [Et|Et].
    - rewrite <- Et in *. apply Z.mul_le_mono_nonneg_r; [lia|].
      set (d := q * 2 ^ t) in *.
      assert (Hdm : p / d <= p' / d) by (apply Z.div_le_mono; lia).
      pose proof (Z.div_mod p d ltac:(lia)) as E1.
      pose proof (Z.div_mod p' d ltac:(lia)) as E2.
      pose proof (Z.mod_pos_bound p d Hd) as B1.
      pose proof (Z.mod_pos_bound p' d Hd) as B2.
      destruct (Z.eq_dec (p / d) (p' / d)) as [Em|Em].
      + rewrite <- Em in *.
        assert (Hr : p mod d <= p' mod d) by nia.
        destruct (Z.compare_spec (2 * (p mod d)) d),
                 (Z.compare_spec (2 * (p' mod d)) d),
                 (Z.even (p / d)); lia.
      + destruct Hm as [_ Hm]. destruct Hm' as [Hm' _]. lia.
    - (* the larger quantity is rounded on a coarser grid *)
      assert (Ht' : t' = Z.log2 f' - 52 /\ 0 < t') by (subst t t'; lia).
      destruct Ht' as [Et' Ht'pos].
      assert (Hf'pos : 0 < f').
      { destruct (Z.eq_dec f' 0) as [E0|]; [|lia].
        rewrite E0 in Et'. simpl in Et'. lia. }
      assert (Hm2 : p / (q * 2 ^ t) < 2 ^ 53).
      { rewrite <- Z.div_div by lia. fold f.
        apply Z.div_lt_upper_bound; [lia|].
        destruct (Z.eq_dec f 0) as [->|Hf0].
        { apply Z.mul_pos_pos; [exact H2t|]. apply Z.pow_pos_nonneg; lia. }
        pose proof (Z.log2_spec f ltac:(lia)) as [_ Hup].
        rewrite <- Z.pow_add_r by lia.
        eapply Z.lt_le_trans; [exact Hup|].
        apply Z.pow_le_mono_r; [lia|]. subst t. lia. }
      assert (Hm3 : 2 ^ 52 <= p' / (q * 2 ^ t')).
      { rewrite <- Z.div_div by lia. fold f'.
        apply Z.div_le_lower_bound; [lia|].
        pose proof (Z.log2_spec f' Hf'pos) as [Hlo _].
        rewrite <- Z.pow_add_r by lia.
        eapply Z.le_trans; [|exact Hlo].
        apply Z.pow_le_mono_r; lia. }
      destruct Hm as [_ Hm]. destruct Hm' as [Hm' _].
      set (a := match 2 * (p mod (q * 2 ^ t)) ?= q * 2 ^ t with
                | Lt => _ | Gt => _ | Eq => _ end) in *.
      set (b := match 2 * (p' mod (q * 2 ^ t')) ?= q * 2 ^ t' with
                | Lt => _ | Gt => _ | Eq => _ end) in *.
      assert (Hpow : 2 ^ 53 * 2 ^ t <= 2 ^ 52 * 2 ^ t').
      { rewrite <- !Z.pow_add_r by lia. apply Z.pow_le_mono_r; lia. }
      assert (0 <= p / (q * 2 ^ t)) by (apply Z.div_pos; lia).
      nia. }
  set (v := match 2 * (p mod (q * 2 ^ t)) ?= q * 2 ^ t with
            | Lt => _ | Gt => _ | Eq => _ end * 2 ^ t) in *.
  set (v' := match 2 * (p' mod (q * 2 ^ t')) ?= q * 2 ^ t' with
             | Lt => _ | Gt => _ | Eq => _ end * 2 ^ t') in *.
  assert (Hv0 : 0 <= v).
  { subst v. apply Z.mul_nonneg_nonneg; [|lia].
    assert (0 <= p / (q * 2 ^ t)) by (apply Z.div_pos; lia). lia. }
  replace (p <? 0) with false by (symmetry; apply Z.ltb_ge; lia).
  replace (p' <? 0) with false by (symmetry; apply Z.ltb_ge; lia).
  assert (Hsv : Z.sgn p * v = v).
  { destruct (Z.eq_dec p 0) as [E0|]; [|rewrite Z.sgn_pos by lia; lia].
    subst v. rewrite Hm0 by (rewrite E0; apply Z.mod_0_l; lia).
    rewrite E0, Z.div_0_l by lia. reflexivity. }
  assert (Hsv' : Z.sgn p' * v' = v' \/ (p' = 0)).
  { destruct (Z.eq_dec p' 0); [auto|left; rewrite Z.sgn_pos by lia; lia]. }
  destruct (Z.leb_spec Num.overflow v), (Z.leb_spec Num.overflow v');
    try reflexivity; try lia.
  rewrite Hsv. unfold Num.le, Num.ge. apply Z.leb_le.
  destruct Hsv' as [->|E0]; [lia|].
  assert (p = 0) by lia. subst. lia.
Qed.

End MoreRoundFacts.

Section QuantileFacts.

Lemma at_index_In {A : Type} (l : list A) (x : number) (v : A) :
  at_index l x = Some v -> In v l.
Proof.
  unfold at_index. destruct (Num.toIndex x); [|discriminate].
  apply nth_error_In.
Qed.

Lemma quantileInclusive_In (values : list number) (q v : number) :
  quantileInclusive values q = Some v -> In v values.
Proof.
  unfold quantileInclusive. destruct values as [|a l]; [discriminate|].
  intros H. apply at_index_In in H.
  apply (Permutation_in _ (Permutation_sym (sort_perm _ _))) in H. exact H.
Qed.

Lemma StronglySorted_nth {A : Type} (R : A -> A -> Prop) (l : list A)
    (i j : nat) (a b : A) :
  StronglySorted R l -> (i < j)%nat ->
  nth_error l i = Some a -> nth_error l j = Some b -> R a b.
Proof.
  intros Hs. revert i j. induction Hs as [|x l Hs IH Hx]; intros i j Hij Ha Hb.
  - destruct i; discriminate.
  - destruct j as [|j]; [lia|]. simpl in Hb. destruct i as [|i].
    + simpl in Ha. injection Ha as <-.
      rewrite Forall_forall in Hx. apply Hx. eapply nth_error_In, Hb.
    + simpl in Ha. apply (IH i j); [lia|assumption|assumption].
Qed.

Lemma le_refl (x : number) : Num.isFinite x = true -> Num.le x x = true.
Proof. apply ge_refl. Qed.

(** The sorted copy that [quantileInclusive] indexes. *)
Lemma sorted_values (values : list number) :
  Forall (fun v => Num.isFinite v = true) values ->
  let sorted := sort (fun a b => Num.sub a b) values in
  StronglySorted (fun a b => Num.le a b = true) sorted
  /\ Forall (fun v => Num.isFinite v = true) sorted
  /\ List.length sorted = List.length values
  /\ forall v, In v sorted <-> In v values.
Proof.
  intros Hfin sorted.
  destruct (sort_asc_spec (fun t => t) values Hfin) as (Hperm & Hs & _).
  split; [exact Hs|]. split; [apply sort_Forall, Hfin|].
  split; [apply sort_length|].
  intros v. split; intros H.
  - apply (Permutation_in _ (Permutation_sym Hperm)), H.
  - apply (Permutation_in _ Hperm), H.
Qed.

Lemma quantileInclusive_at (values : list number) (q : number) (k : nat) :
  values <> [] -> Z.of_nat k < 2 ^ 53 ->
  Num.sub
    (Num.max one
       (Num.ceil (Num.mul q (Num.ofNat (List.length values)))))
    one
  = Num.ofNat k ->
  quantileInclusive values q
  = nth_error (sort (fun a b => Num.sub a b) values) k.
Proof.
  intros Hne Hk Hrank. unfold quantileInclusive.
  destruct values as [|a l]; [contradiction|].
  rewrite sort_length, Hrank. unfold at_index.
  rewrite toIndex_ofNat by assumption. reflexivity.
Qed.

Lemma ofNat_pos (n : nat) :
  (1 <= n)%nat ->
  Num.ofNat n = PosInf \/ exists a, Num.ofNat n = Fin a /\ 0 < a.
Proof.
  intros Hn. unfold Num.ofNat. pose proof unit_pos.
  pose proof (round_pos (Z.of_nat n * Num.unit) ltac:(nia)) as Hpos.
  destruct (Num.round (Z.of_nat n * Num.unit) 1) as [| |a|];
    try discriminate; [right|left; reflexivity].
  exists a. split; [reflexivity|]. apply Z.ltb_lt. exact Hpos.
Qed.

Lemma sub_one_one : Num.sub one one = Num.ofNat 0.
Proof.
  rewrite one_exact, ofNat_exact by (simpl; lia).
  unfold Num.sub, Num.neg, Num.add.
  replace (Num.unit + - Num.unit) with 0 by lia. reflexivity.
Qed.

(** A quantile at or below 0 selects rank 1. *)
Lemma rank_low (q : number) (n : nat) :
  Num.le q (Fin 0) = true -> (1 <= n)%nat -> Z.of_nat n < 2 ^ 53 ->
  Num.max one (Num.ceil (Num.mul q (Num.ofNat n))) = one.
Proof.
  intros Hq Hn Hlt. pose proof unit_pos as Hu.
  rewrite one_exact, ofNat_exact by assumption.
  set (a := Z.of_nat n * Num.unit). assert (Ha : 0 < a) by (subst a; nia).
  destruct q as [| |z|]; try discriminate.
  - unfold Num.mul. destruct (Z.eqb_spec a 0); [lia|].
    replace (0 <? a) with true by (symmetry; apply Z.ltb_lt; lia).
    reflexivity.
  - simpl in Hq. apply Z.leb_le in Hq. unfold Num.mul.
    replace (z * a) with (- (- z * a)) by lia.
    rewrite round_opp_any by exact Hu.
    destruct (round_nonneg (- z * a) Num.unit ltac:(nia) Hu)
      as [->|(y & -> & Hy)]; [reflexivity|].
    simpl Num.neg. unfold Num.ceil, Num.max, Num.gt.
    rewrite Z.opp_involutive.
    assert (0 <= y / Num.unit) by (apply Z.div_pos; lia).
    destruct (Z.ltb_spec Num.unit (- (y / Num.unit) * Num.unit));
      [nia|reflexivity].
Qed.

Lemma round_scaled (z q : Z) :
  representable z -> 0 < q -> Num.round (z * q) q = Fin z.
Proof.
  intros [Hov [k Hk]] Hq. unfold Num.round.
  rewrite Z.abs_mul, (Z.abs_eq q) by lia.
  rewrite Z.div_mul by lia.
  set (t := Z.max 0 (Z.log2 (Z.abs z) - 52)) in *.
  assert (Hd : 0 < 2 ^ t) by (apply Z.pow_pos_nonneg; subst t; lia).
  assert (E : Z.abs z * q = k * (q * 2 ^ t)) by (rewrite Hk; ring).
  rewrite E, Z.mod_mul, Z.div_mul, Z.mul_0_r by nia.
  replace (0 ?= q * 2 ^ t) with Lt
    by (symmetry; apply Z.compare_lt_iff; nia).
  rewrite <- Hk.
  replace (Num.overflow <=? Z.abs z) with false
    by (symmetry; apply Z.leb_gt; lia).
  f_equal. rewrite Z.sgn_mul, (Z.sgn_pos q), Z.mul_1_r by lia.
  rewrite Z.mul_comm. apply Z.abs_sgn.
Qed.

(** The quantile 1 selects the last rank. *)
Lemma rank_high (n : nat) :
  (1 <= n)%nat -> Z.of_nat n < 2 ^ 53 ->
  Num.max one (Num.ceil (Num.mul one (Num.ofNat n))) = Num.ofNat n.
Proof.
  intros Hn Hlt. pose proof unit_pos as Hu.
  rewrite one_exact, ofNat_exact by assumption. unfold Num.mul.
  rewrite (Z.mul_comm Num.unit).
  rewrite round_scaled by (try apply representable_nat; lia).
  unfold Num.ceil.
  replace (- (Z.of_nat n * Num.unit)) with (- Z.of_nat n * Num.unit) by lia.
  rewrite Z.div_mul, Z.opp_involutive by lia.
  unfold Num.max, Num.gt.
  destruct (Z.ltb_spec Num.unit (Z.of_nat n * Num.unit)); [reflexivity|].
  f_equal. nia.
Qed.

Lemma sub_ofNat_one (n : nat) :
  (1 <= n)%nat -> Z.of_nat n < 2 ^ 53 ->
  Num.sub (Num.ofNat n) one = Num.ofNat (n - 1).
Proof.
  intros Hn Hlt. rewrite one_exact, !ofNat_exact by lia.
  unfold Num.sub, Num.neg, Num.add.
  rewrite Nat2Z.inj_sub by lia. change (Z.of_nat 1) with 1.
  replace (Z.of_nat n * Num.unit + - Num.unit)
    with ((Z.of_nat n - 1) * Num.unit) by lia.
  apply round_representable, representable_nat. lia.
Qed.

Lemma ceil_mono (x y : number) :
  Num.le x y = true -> Num.le (Num.ceil x) (Num.ceil y) = true.
Proof.
  pose proof unit_pos as Hu. unfold Num.le.
  destruct x as [| |a|], y as [| |b|]; simpl; try discriminate;
    try reflexivity.
  rewrite !Z.leb_le. intros Hab.
  assert (- b / Num.unit <= - a / Num.unit)
    by (apply Z.div_le_mono; lia).
  nia.
Qed.

Lemma max_one_mono (x y : number) :
  Num.le x y = true -> Num.le (Num.max one x) (Num.max one y) = true.
Proof.
  rewrite one_exact. unfold Num.le, Num.max, Num.gt, Num.ge.
  destruct x as [| |a|], y as [| |b|]; simpl; try discriminate;
    try reflexivity;
    repeat match goal with
           | |- context [?u <? ?v] => destruct (Z.ltb_spec u v)
           end;
    rewrite ?Z.leb_le; try reflexivity; try lia.
Qed.

Lemma mul_mono (z z' b : Z) :
  0 <= z <= z' -> 0 <= b ->
  Num.le (Num.mul (Fin z) (Fin b)) (Num.mul (Fin z') (Fin b)) = true.
Proof.
  intros Hz Hb. unfold Num.mul. apply round_mono; [nia|apply unit_pos].
Qed.

Lemma ofNat_le (i j : nat) :
  Z.of_nat i < 2 ^ 53 -> Z.of_nat j < 2 ^ 53 ->
  Num.le (Num.ofNat i) (Num.ofNat j) = true -> (i <= j)%nat.
Proof.
  intros Hi Hj. rewrite !ofNat_exact by assumption. pose proof unit_pos.
  unfold Num.le, Num.ge. rewrite Z.leb_le. nia.
Qed.

(** A larger quantile gives a larger threshold. *)
Lemma quantile_mono (values : list number) (zq zq' : Z) :
  Forall (fun v => Num.isFinite v = true) values ->
  values <> [] -> Z.of_nat (List.length values) < 2 ^ 53 ->
  0 <= zq <= zq' -> zq' <= Num.unit ->
  exists th th',
    quantileInclusive values (Fin zq) = Some th
    /\ quantileInclusive values (Fin zq') = Some th'
    /\ Num.isFinite th' = true
    /\ Num.le th th' = true.
Proof.
  intros Hfin Hne Hlen Hq Hq'.
  set (n := List.length values) in *.
  assert (Hn : (1 <= n)%nat)
    by (subst n; destruct values; [contradiction|simpl; lia]).
  destruct (rank_in_range zq n ltac:(lia) Hn Hlen) as (r & Hr & Hmax & Hsub).
  destruct (rank_in_range zq' n ltac:(lia) Hn Hlen)
    as (r' & Hr' & Hmax' & Hsub').
  assert (Hrr : (r <= r')%nat).
  { apply ofNat_le; try lia. rewrite <- Hmax, <- Hmax'.
    apply max_one_mono, ceil_mono.
    rewrite (ofNat_exact n Hlen). apply mul_mono; [lia|].
    pose proof unit_pos. nia. }
  destruct (sorted_values values Hfin) as (Hs & Hsf & Hsl & _).
  set (sorted := sort (fun a b => Num.sub a b) values) in *.
  assert (Eq : forall z k,
             Num.max one (Num.ceil (Num.mul (Fin z) (Num.ofNat n)))
             = Num.ofNat k ->
             Num.sub (Num.ofNat k) one = Num.ofNat (k - 1) ->
             (1 <= k <= n)%nat ->
             quantileInclusive values (Fin z) = nth_error sorted (k - 1)).
  { intros z k Hm Hsb Hk. apply quantileInclusive_at; [exact Hne|lia|].
    fold n. rewrite Hm. exact Hsb. }
  destruct (nth_error sorted (r - 1)) as [th|] eqn:Hth;
    [|apply nth_error_None in Hth; lia].
  destruct (nth_error sorted (r' - 1)) as [th'|] eqn:Hth';
    [|apply nth_error_None in Hth'; lia].
  exists th, th'.
  rewrite (Eq zq r Hmax Hsub Hr), (Eq zq' r' Hmax' Hsub' Hr'), Hth, Hth'.
  assert (Hfin' : Num.isFinite th' = true).
  { rewrite Forall_forall in Hsf. eapply Hsf, nth_error_In, Hth'. }
  repeat split; try assumption.
  destruct (Nat.eq_dec (r - 1) (r' - 1)) as [E|E].
  - rewrite E, Hth' in Hth. injection Hth as <-. apply le_refl, Hfin'.
  - apply (StronglySorted_nth _ sorted (r - 1) (r' - 1) th th' Hs);
      [lia|assumption|assumption].
Qed.

End QuantileFacts.

(** ** [mostFrequent] *)

Lemma mostFrequent_unfold (items : list (option string)) :
  mostFrequent items
  = fst (fold_left pickStep (fold_left countStep items []) (None, 0)).
Proof.
  unfold mostFrequent. f_equal.
  change (fold_left _ items []) with (fold_left countStep items []).
  generalize (fold_left countStep items []) (@None string, 0).
  intros m. induction m as [|[k n] m IH]; intros [best bestN];
    [reflexivity|apply IH].
Qed.

Section MostFrequent.

Lemma occurrences_app (s : string) (l1 l2 : list (option string)) :
  occurrences s (l1 ++ l2) = occurrences s l1 + occurrences s l2.
Proof.
  unfold occurrences. rewrite filter_app, length_app. lia.
Qed.

Lemma occurrences_nonneg (s : string) (l : list (option string)) :
  0 <= occurrences s l.
Proof. unfold occurrences. lia. Qed.

Lemma occurrences_pos (s : string) (l : list (option string)) :
  0 < occurrences s l <-> In (Some s) l.
Proof.
  unfold occurrences. induction l as [|it l IH]; simpl.
  - split; [lia|contradiction].
  - destruct it as [s'|]; [destruct (String.eqb_spec s' s) as [->|Hne]|].
    + simpl. split; [auto|lia].
    + rewrite IH. split; [auto|]. intros [H|H]; [congruence|exact H].
    + rewrite IH. split; [auto|]. intros [H|H]; [discriminate|exact H].
Qed.

Lemma occurrences_single (s s' : string) :
  occurrences s [Some s'] = if String.eqb s' s then 1 else 0.
Proof. unfold occurrences. simpl. destruct (String.eqb s' s); reflexivity. Qed.

Lemma map_get_set_same (m : list (string * Z)) (k : string) (n : Z) :
  map_get (map_set m k n) k = Some n.
Proof.
  induction m as [|[k' n'] m IH]; simpl.
  - rewrite String.eqb_refl. reflexivity.
  - destruct (String.eqb k' k) eqn:E; simpl; rewrite E; auto.
Qed.

Lemma map_get_set_other (m : list (string * Z)) (k k' : string) (n : Z) :
  k' <> k -> map_get (map_set m k n) k' = map_get m k'.
Proof.
  intros Hne. induction m as [|[k0 n0] m IH]; simpl.
  - destruct (String.eqb_spec k k'); [congruence|reflexivity].
  - destruct (String.eqb_spec k0 k) as [->|H0]; simpl.
    + destruct (String.eqb_spec k k'); [congruence|reflexivity].
    + destruct (String.eqb k0 k'); [reflexivity|exact IH].
Qed.

(** Setting a key that is present keeps the keys as they are; a new key
    goes last. *)
Lemma map_set_keys (m : list (string * Z)) (k : string) (n : Z) :
  map fst (map_set m k n)
  = match map_get m k with
    | Some _ => map fst m
    | None => map fst m ++ [k]
    end.
Proof.
  induction m as [|[k' n'] m IH]; simpl; [reflexivity|].
  destruct (String.eqb_spec k' k) as [->|Hne]; simpl; [reflexivity|].
  rewrite IH. destruct (map_get m k); reflexivity.
Qed.

Lemma map_get_In (m : list (string * Z)) (k : string) :
  map_get m k <> None <-> In k (map fst m).
Proof.
  induction m as [|[k' n'] m IH]; simpl.
  - split; [congruence|contradiction].
  - destruct (String.eqb_spec k' k) as [->|Hne].
    + split; [auto|discriminate].
    + rewrite IH. split; [auto|]. intros [H|H]; [congruence|exact H].
Qed.

Lemma tallies_nil : tallies [] [].
Proof.
  split; [|split].
  - intros k. simpl. rewrite andb_false_r. reflexivity.
  - constructor.
  - intros m1 k m2 k' H. destruct m1; discriminate.
Qed.

Lemma NoDup_snoc {A : Type} (l : list A) (x : A) :
  NoDup l -> ~ In x l -> NoDup (l ++ [x]).
Proof.
  intros Hl Hx. apply (Permutation_NoDup (l := x :: l)).
  - apply Permutation_cons_append.
  - constructor; assumption.
Qed.

Lemma tallies_step (seen : list (option string)) (m : list (string * Z))
    (it : option string) :
  tallies seen m -> tallies (seen ++ [it]) (countStep m it).
Proof.
  intros (Hget & Hnd & Hord).
  assert (Hlater : forall m1 k m2 k',
             map fst m = m1 ++ k :: m2 -> In k' m2 ->
             exists l1 l2, seen ++ [it] = l1 ++ Some k :: l2
                           /\ ~ In (Some k') l1).
  { intros m1 k m2 k' Hm Hk'.
    destruct (Hord m1 k m2 k' Hm Hk') as (l1 & l2 & -> & Hn).
    exists l1, (l2 ++ [it]). rewrite <- app_assoc.
    split; [reflexivity|exact Hn]. }
  destruct it as [s|]; [destruct (String.eqb_spec s "") as [->|Hs]|].
  - (* the empty string is skipped *)
    simpl. split; [|split; [exact Hnd|exact Hlater]].
    intros k. rewrite Hget, occurrences_app, occurrences_single.
    destruct (String.eqb_spec "" k) as [<-|Hk]; [reflexivity|].
    rewrite Z.add_0_r. reflexivity.
  - (* a string that counts *)
    assert (Ht : truthy_string (Some s) = true).
    { simpl. destruct (String.eqb_spec s ""); [contradiction|reflexivity]. }
    unfold countStep. rewrite Ht.
    pose proof (occurrences_nonneg s seen) as Hnn.
    assert (Hcur : match map_get m s with Some n => n | None => 0 end
                   = occurrences s seen).
    { rewrite Hget. destruct (String.eqb_spec s ""); [contradiction|].
      simpl. destruct (Z.ltb_spec 0 (occurrences s seen)); lia. }
    rewrite Hcur. split; [|split].
    + intros k. rewrite occurrences_app, occurrences_single.
      destruct (String.eqb_spec s k) as [<-|Hk].
      * rewrite map_get_set_same.
        destruct (String.eqb_spec s ""); [contradiction|]. simpl.
        destruct (Z.ltb_spec 0 (occurrences s seen + 1)); [reflexivity|lia].
      * rewrite map_get_set_other by congruence.
        rewrite Hget, Z.add_0_r. reflexivity.
    + rewrite map_set_keys. destruct (map_get m s) eqn:E; [exact Hnd|].
      apply NoDup_snoc; [exact Hnd|].
      intros Hin. apply map_get_In in Hin. contradiction.
    + rewrite map_set_keys. destruct (map_get m s) eqn:E; [exact Hlater|].
      intros m1 k m2 k' Hm Hk'.
      destruct m2 as [|x m2] using rev_ind; [contradiction|]. clear IHm2.
      change (m1 ++ k :: m2 ++ [x]) with (m1 ++ (k :: m2) ++ [x]) in Hm.
      rewrite app_assoc in Hm. apply app_inj_tail in Hm as [Hm <-].
      apply in_app_or in Hk' as [Hk'|[<-|[]]]; [exact (Hlater _ _ _ _ Hm Hk')|].
      assert (Hk : In (Some k) seen).
      { apply occurrences_pos.
        assert (Hin : map_get m k <> None)
          by (apply map_get_In; rewrite Hm; apply in_elt).
        rewrite Hget in Hin.
        destruct (negb (String.eqb k "")); [|contradiction]. simpl in Hin.
        destruct (Z.ltb_spec 0 (occurrences k seen));
          [assumption|contradiction]. }
      apply in_split in Hk as (l1 & l2 & Hseen).
      exists l1, (l2 ++ [Some s]). split.
      * rewrite Hseen, <- app_assoc. reflexivity.
      * intros Hl1.
        assert (Hpos : 0 < occurrences s seen).
        { apply occurrences_pos. rewrite Hseen. apply in_or_app. left.
          exact Hl1. }
        lia.
  - (* [undefined] is skipped *)
    simpl. split; [|split; [exact Hnd|exact Hlater]].
    intros k. rewrite Hget, occurrences_app. simpl.
    rewrite Z.add_0_r. reflexivity.
Qed.

Lemma tallies_fold (rest seen : list (option string))
    (m : list (string * Z)) :
  tallies seen m -> tallies (seen ++ rest) (fold_left countStep rest m).
Proof.
  revert seen m. induction rest as [|it rest IH]; intros seen m H.
  - rewrite app_nil_r. exact H.
  - cbn [fold_left].
    replace (seen ++ it :: rest) with ((seen ++ [it]) ++ rest)
      by (rewrite <- app_assoc; reflexivity).
    apply IH, tallies_step, H.
Qed.

Lemma map_get_entry (m : list (string * Z)) (k : string) (n : Z) :
  NoDup (map fst m) -> In (k, n) m -> map_get m k = Some n.
Proof.
  induction m as [|[k' n'] m IH]; simpl; [contradiction|].
  intros Hnd [H|H].
  - injection H as -> ->. rewrite String.eqb_refl. reflexivity.
  - inversion Hnd as [|? ? Hk' Hnd']; subst.
    destruct (String.eqb_spec k' k) as [->|Hne]; [|auto].
    exfalso. apply Hk'. apply (in_map fst) in H. exact H.
Qed.

(** The second loop returns the first entry whose count is not reached
    before it and not exceeded after it. *)
Lemma pick_first_max (m : list (string * Z)) (best : option string)
    (bestN : Z) :
  (fold_left pickStep m (best, bestN) = (best, bestN)
   /\ forall k n, In (k, n) m -> n <= bestN)
  \/ exists m1 k n m2,
       m = m1 ++ (k, n) :: m2
       /\ fold_left pickStep m (best, bestN) = (Some k, n)
       /\ bestN < n
       /\ (forall k' n', In (k', n') m1 -> n' < n)
       /\ (forall k' n', In (k', n') m2 -> n' <= n).
Proof.
  revert best bestN. induction m as [|[k0 n0] m IH]; intros best bestN.
  - left. split; [reflexivity|]. intros k n [].
  - cbn [fold_left pickStep]. destruct (Z.ltb_spec bestN n0) as [Hlt|Hge].
    + right. destruct (IH (Some k0) n0)
        as [[Heq Hall]|(m1 & k & n & m2 & -> & Heq & Hn & H1 & H2)].
      * exists [], k0, n0, m. repeat split; auto. intros k' n' [].
      * exists ((k0, n0) :: m1), k, n, m2. repeat split; auto; [lia|].
        intros k' n' [H|H]; [injection H as <- <-; exact Hn|eauto].
    + destruct (IH best bestN)
        as [[Heq Hall]|(m1 & k & n & m2 & -> & Heq & Hn & H1 & H2)].
      * left. split; [exact Heq|].
        intros k n [H|H]; [injection H as <- <-; exact Hge|eauto].
      * right. exists ((k0, n0) :: m1), k, n, m2. repeat split; auto.
        intros k' n' [H|H]; [injection H as <- <-; lia|eauto].
Qed.

(** [mostFrequent] in one statement: nothing when no item counts;
    otherwise a string whose count no other reaches before it in the map
    and no other exceeds. *)
Lemma mostFrequent_spec (items : list (option string)) :
  (mostFrequent items = None
   /\ forall s, In (Some s) items -> s = ""%string)
  \/ exists s,
       mostFrequent items = Some s
       /\ s <> ""%string
       /\ In (Some s) items
       /\ forall s',
            s' <> ""%string ->
            occurrences s' items <= occurrences s items
            /\ (occurrences s' items = occurrences s items -> s' <> s ->
                exists l1 l2,
                  items = l1 ++ Some s :: l2 /\ ~ In (Some s') l1).
Proof.
  rewrite mostFrequent_unfold.
  destruct (tallies_fold items [] [] tallies_nil) as (Hget & Hnd & Hord).
  cbn [app] in *. set (m := fold_left countStep items []) in *.
  assert (Hentry : forall k n,
             In (k, n) m ->
             k <> ""%string /\ n = occurrences k items /\ 0 < n).
  { intros k n Hin. apply (map_get_entry _ _ _ Hnd) in Hin.
    rewrite Hget in Hin.
    destruct (String.eqb_spec k ""); [discriminate|]. simpl in Hin.
    destruct (Z.ltb_spec 0 (occurrences k items)); [|discriminate].
    injection Hin as <-. auto. }
  assert (Hkey : forall k,
             k <> ""%string -> 0 < occurrences k items ->
             In (k, occurrences k items) m).
  { intros k Hk Hpos. specialize (Hget k).
    destruct (String.eqb_spec k ""); [contradiction|]. simpl in Hget.
    destruct (Z.ltb_spec 0 (occurrences k items)); [|lia].
    clear - Hget. induction m as [|[k' n'] m IH]; [discriminate|].
    simpl in Hget. destruct (String.eqb_spec k' k) as [->|Hne].
    - injection Hget as ->. left. reflexivity.
    - right. auto. }
  destruct (pick_first_max m None 0)
    as [[Heq Hall]|(m1 & s & n & m2 & Hm & Heq & Hn & H1 & H2)].
  - left. rewrite Heq. split; [reflexivity|].
    intros s Hs. destruct (String.eqb_spec s ""); [assumption|].
    apply occurrences_pos in Hs.
    specialize (Hall _ _ (Hkey s ltac:(assumption) Hs)). lia.
  - right. exists s. rewrite Heq.
    assert (Hin : In (s, n) m) by (rewrite Hm; apply in_elt).
    destruct (Hentry _ _ Hin) as (Hs & Hns & _).
    split; [reflexivity|]. split; [exact Hs|]. split.
    { apply occurrences_pos. lia. }
    intros s' Hs'.
    destruct (Z.ltb_spec 0 (occurrences s' items)) as [Hpos|Hzero].
    + pose proof (Hkey s' Hs' Hpos) as Hin'.
      rewrite Hm in Hin'. apply in_app_or in Hin' as [Hin'|[Hin'|Hin']].
      * specialize (H1 _ _ Hin'). split; [lia|]. intros; lia.
      * injection Hin' as -> _. split; [lia|]. intros _ Hne. contradiction.
      * specialize (H2 _ _ Hin'). split; [lia|]. intros _ _.
        apply (Hord (map fst m1) s (map fst m2) s').
        -- rewrite Hm, map_app. reflexivity.
        -- apply (in_map fst) in Hin'. exact Hin'.
    + pose proof (occurrences_nonneg s' items). split; [lia|]. intros; lia.
Qed.

End MostFrequent.

(** X1.  [mostFrequent] is undefined exactly when nothing counts: every
    item is [undefined] or the empty string. *)
Theorem X1_mostFrequent_undefined (items : list (option string)) :
  mostFrequent items = None
  <-> forall s, In (Some s) items -> s = ""%string.
Proof.
  destruct (mostFrequent_spec items)
    as [[Hnone Hall]|(s & Hsome & Hs & Hin & _)].
  - split; auto.
  - rewrite Hsome. split; [discriminate|].
    intros Hall. elim Hs. apply Hall, Hin.
Qed.

(** X2.  The string that [mostFrequent] returns is a non-empty item, and
    no other non-empty string occurs more often. *)
Theorem X2_mostFrequent_is_most_frequent
    (items : list (option string)) (s : string) :
  mostFrequent items = Some s ->
  s <> ""%string
  /\ In (Some s) items
  /\ forall s', s' <> ""%string ->
                occurrences s' items <= occurrences s items.
Proof.
  intros H. destruct (mostFrequent_spec items)
    as [[Hnone _]|(s0 & Hsome & Hs & Hin & Hmax)]; [congruence|].
  assert (s0 = s) by congruence. subst s0.
  repeat split; try assumption. intros s' Hs'. apply Hmax, Hs'.
Qed.

(** X3.  Among the strings that occur equally often, [mostFrequent]
    returns the one met first. *)
Theorem X3_mostFrequent_first_wins_ties
    (items : list (option string)) (s s' : string) :
  mostFrequent items = Some s ->
  s' <> ""%string -> s' <> s ->
  occurrences s' items = occurrences s items ->
  exists l1 l2, items = l1 ++ Some s :: l2 /\ ~ In (Some s') l1.
Proof.
  intros H Hs' Hne Heq. destruct (mostFrequent_spec items)
    as [[Hnone _]|(s0 & Hsome & Hs & Hin & Hmax)]; [congruence|].
  assert (s0 = s) by congruence. subst s0.
  apply (Hmax s' Hs'); assumption.
Qed.

(** ** The report *)

Section ListFacts.
Context {A : Type}.

Lemma Permutation_filter_split (p : A -> bool) (l : list A) :
  Permutation l (filter p l ++ filter (fun a => negb (p a)) l).
Proof.
  induction l as [|x l IH]; simpl; [constructor|].
  destruct (p x); simpl.
  - constructor. exact IH.
  - apply Permutation_cons_app. exact IH.
Qed.

Lemma StronglySorted_cross (R : A -> A -> Prop) (l1 l2 : list A) :
  StronglySorted R (l1 ++ l2) ->
  forall a b, In a l1 -> In b l2 -> R a b.
Proof.
  induction l1 as [|x l1 IH]; simpl; intros Hs a b Ha Hb; [contradiction|].
  inversion Hs as [|? ? Hs' Hx]; subst. destruct Ha as [<-|Ha].
  - rewrite Forall_forall in Hx. apply Hx, in_or_app. right. exact Hb.
  - apply IH; assumption.
Qed.

Lemma StronglySorted_firstn (R : A -> A -> Prop) (n : nat) (l : list A) :
  StronglySorted R l -> StronglySorted R (firstn n l).
Proof.
  intros Hs. revert n. induction Hs as [|x l Hs IH Hx]; intros [|n]; simpl;
    try constructor.
  - apply IH.
  - rewrite Forall_forall in *. intros y Hy. apply Hx.
    eapply In_firstn, Hy.
Qed.

Lemma filter_all (p : A -> bool) (l : list A) :
  Forall (fun a => p a = true) l -> filter p l = l.
Proof.
  induction 1 as [|x l Hx Hl IH]; simpl; [reflexivity|].
  rewrite Hx, IH. reflexivity.
Qed.

Lemma filter_none (p : A -> bool) (l : list A) :
  (forall a, p a = false) -> filter p l = [].
Proof.
  intros H. induction l as [|x l IH]; simpl; [reflexivity|].
  rewrite H. exact IH.
Qed.

End ListFacts.

(** X4.  With a quantile at or below 0 the threshold is the smallest
    duration. *)
Theorem X4_quantile_low_is_minimum (values : list number) (q : number) :
  Forall (fun v => Num.isFinite v = true) values ->
  values <> [] -> Z.of_nat (List.length values) < 2 ^ 53 ->
  Num.le q (Fin 0) = true ->
  exists m,
    quantileInclusive values q = Some m
    /\ In m values
    /\ forall v, In v values -> Num.le m v = true.
Proof.
  intros Hfin Hne Hlen Hq.
  assert (Hn : (1 <= List.length values)%nat)
    by (destruct values; [contradiction|simpl; lia]).
  rewrite (quantileInclusive_at values q 0 Hne ltac:(simpl; lia))
    by (rewrite rank_low by assumption; apply sub_one_one).
  destruct (sorted_values values Hfin) as (Hs & Hsf & Hsl & Hin).
  destruct (sort (fun a b => Num.sub a b) values) as [|m rest] eqn:E;
    [simpl in Hsl; lia|].
  exists m. split; [reflexivity|]. split; [apply Hin; left; reflexivity|].
  intros v Hv. apply Hin in Hv as [<-|Hv].
  - inversion Hsf; subst. apply le_refl. assumption.
  - inversion Hs as [|? ? _ Hall]; subst.
    rewrite Forall_forall in Hall. apply Hall, Hv.
Qed.

(** X5.  With the quantile 1 the threshold is the largest duration. *)
Theorem X5_quantile_one_is_maximum (values : list number) :
  Forall (fun v => Num.isFinite v = true) values ->
  values <> [] -> Z.of_nat (List.length values) < 2 ^ 53 ->
  exists m,
    quantileInclusive values one = Some m
    /\ In m values
    /\ forall v, In v values -> Num.le v m = true.
Proof.
  intros Hfin Hne Hlen.
  set (n := List.length values) in *.
  assert (Hn : (1 <= n)%nat)
    by (subst n; destruct values; [contradiction|simpl; lia]).
  rewrite (quantileInclusive_at values one (n - 1) Hne ltac:(lia))
    by (fold n; rewrite rank_high by assumption;
        apply sub_ofNat_one; assumption).
  destruct (sorted_values values Hfin) as (Hs & Hsf & Hsl & Hin).
  set (sorted := sort (fun a b => Num.sub a b) values) in *.
  destruct (nth_error sorted (n - 1)) as [m|] eqn:Hm;
    [|apply nth_error_None in Hm; fold n in Hsl; lia].
  exists m. split; [reflexivity|].
  split; [eapply Hin, nth_error_In, Hm|].
  intros v Hv. apply Hin in Hv. apply In_nth_error in Hv as [i Hi].
  assert (Hi' : (i < n)%nat).
  { fold n in Hsl. rewrite <- Hsl. apply nth_error_Some. congruence. }
  destruct (Nat.eq_dec i (n - 1)) as [->|Hne'].
  - rewrite Hm in Hi. injection Hi as <-. apply le_refl.
    rewrite Forall_forall in Hsf. eapply Hsf, nth_error_In, Hm.
  - apply (StronglySorted_nth _ sorted i (n - 1) v m Hs);
      [lia|assumption|assumption].
Qed.

Lemma quantileInclusive_undefined (values : list number) (q : number) :
  q = NaN \/ q = PosInf -> quantileInclusive values q = None.
Proof.
  intros Hq. unfold quantileInclusive.
  destruct values as [|a l]; [reflexivity|].
  set (sorted := sort (fun a b => Num.sub a b) (a :: l)).
  assert (Hn : (1 <= List.length sorted)%nat)
    by (subst sorted; rewrite sort_length; simpl; lia).
  destruct Hq as [->| ->]; [reflexivity|].
  rewrite one_exact.
  destruct (ofNat_pos _ Hn) as [->|(b & -> & Hb)]; [reflexivity|].
  unfold Num.mul. destruct (Z.eqb_spec b 0); [lia|].
  replace (b <? 0) with false by (symmetry; apply Z.ltb_ge; lia).
  reflexivity.
Qed.

(** X6.  A quantile that is [NaN] or [+Infinity] leaves the threshold
    undefined: the quantile keeps nothing, and the result is the first
    [minKeepSuites] suites of the pool by decreasing duration. *)
Theorem X6_undefined_quantile_falls_back_to_floor
    (root : Root.t) (opts : JUnitOptions.t) :
  let pool := Vars.allSuites (loopResult root) in
  let q := JUnitOptions.slowSuitesQuantile opts in
  q = NaN \/ q = PosInf ->
  quantileInclusive (map SlowSuite.totalTime pool) q = None
  /\ quantileSuites pool q = []
  /\ JUnitReport.slowTopQuantileSuites (analyze root opts)
     = firstn (JUnitOptions.minKeepSuites opts) (sort byTotalTimeDesc pool).
Proof.
  intros pool q Hq.
  assert (Hnone : quantileInclusive (map SlowSuite.totalTime pool) q = None)
    by (apply quantileInclusive_undefined, Hq).
  assert (Hqs : quantileSuites pool q = [])
    by (unfold quantileSuites; rewrite Hnone; reflexivity).
  split; [exact Hnone|]. split; [exact Hqs|].
  change (JUnitReport.slowTopQuantileSuites (analyze root opts))
    with (slowSuites pool q (JUnitOptions.minKeepSuites opts)).
  unfold slowSuites. fold q. rewrite Hqs. unfold slice0.
  destruct (JUnitOptions.minKeepSuites opts) as [|k]; [reflexivity|].
  destruct pool as [|s pool']; reflexivity.
Qed.

(** X7.  Whatever the quantile, a threshold that is defined is one of the
    values; an empty array has none. *)
Theorem X7_quantile_is_a_member (values : list number) (q : number) :
  quantileInclusive [] q = None
  /\ forall v, quantileInclusive values q = Some v -> In v values.
Proof.
  split; [reflexivity|]. intros v. apply quantileInclusive_In.
Qed.

Lemma ge_trans_gap (a b th : number) :
  Num.isFinite a = true -> Num.isFinite b = true ->
  Num.ge a th = true -> Num.ge b th = false -> Num.isFinite th = true ->
  Num.ge a b = true.
Proof.
  destruct a, b, th; simpl; try discriminate. intros _ _.
  rewrite !Z.leb_le, Z.leb_gt. lia.
Qed.

(** X8.  Raising the quantile can only remove suites from the quantile
    selection, and removes them from its slow end. *)
Theorem X8_higher_quantile_keeps_a_prefix (root : Root.t) (zq zq' : Z) :
  let pool := Vars.allSuites (loopResult root) in
  Z.of_nat (List.length pool) < 2 ^ 53 ->
  0 <= zq <= zq' -> zq' <= Num.unit ->
  exists more,
    quantileSuites pool (Fin zq) = quantileSuites pool (Fin zq') ++ more.
Proof.
  intros pool.
  assert (Hp : pool = candidatePool root) by apply allSuites_loopResult.
  clearbody pool. subst pool. set (pool := candidatePool root).
  intros Hlen Hq Hq'.
  pose proof (candidatePool_finite root) as Hfin. fold pool in Hfin.
  destruct pool as [|s0 pool'] eqn:Epool; [exists []; reflexivity|].
  rewrite <- Epool in *.
  destruct (quantile_mono (map SlowSuite.totalTime pool) zq zq')
    as (th & th' & Hth & Hth' & Hfth' & Hle).
  { apply Forall_map. exact Hfin. }
  { rewrite Epool. discriminate. }
  { rewrite length_map. exact Hlen. }
  { exact Hq. } { exact Hq'. }
  unfold quantileSuites. rewrite Hth, Hth'.
  set (above := fun t s => Num.ge (SlowSuite.totalTime s) t).
  change (exists more,
             sort byTotalTimeDesc (filter (above th) pool)
             = sort byTotalTimeDesc (filter (above th') pool) ++ more).
  rewrite <- (filter_absorb (above th') (above th) pool).
  - rewrite (sort_split byTotalTimeDesc
               (fun s => Num.isFinite (SlowSuite.totalTime s) = true)
               (fun s => - zOf (SlowSuite.totalTime s))
               (desc_rank SlowSuite.totalTime) (above th'))
      with (l := filter (above th) pool).
    + eexists. reflexivity.
    + intros a b. unfold above.
      destruct (SlowSuite.totalTime a), (SlowSuite.totalTime b), th';
        simpl; try discriminate.
      intros _ _. rewrite Z.leb_le, Z.leb_gt. lia.
    + apply Forall_filter, Hfin.
  - intros x. unfold above, Num.le in *.
    destruct (SlowSuite.totalTime x), th, th'; simpl in *;
      try discriminate; try reflexivity.
    rewrite !Z.leb_le in *. lia.
Qed.

Lemma slowTests_sorted (l : list SlowTest.t) (t : number) :
  Forall (fun x => Num.isFinite (SlowTest.time x) = true) l ->
  StronglySorted
    (fun a b => Num.ge (SlowTest.time a) (SlowTest.time b) = true)
    (sort byTimeDesc (filter (fun x => Num.gt (SlowTest.time x) t) l)).
Proof.
  intros Hl.
  apply (sort_desc_spec SlowTest.time), Forall_filter, Hl.
Qed.

(** X9.  With the same threshold, the slow tests for a smaller
    [topSlowTests] are the first ones of the list for a larger one, and
    every test cut off is no slower than any test kept. *)
Theorem X9_smaller_topN_keeps_the_slowest
    (root : Root.t) (small large : JUnitOptions.t) :
  JUnitOptions.slowTestThresholdSec small
  = JUnitOptions.slowTestThresholdSec large ->
  (JUnitOptions.topSlowTests small <= JUnitOptions.topSlowTests large)%nat ->
  let n := JUnitOptions.topSlowTests small in
  let atSmall := JUnitReport.slowTopQuantileTests (analyze root small) in
  let atLarge := JUnitReport.slowTopQuantileTests (analyze root large) in
  atSmall = firstn n atLarge
  /\ forall a b,
       In a atSmall -> In b (skipn n atLarge) ->
       Num.ge (SlowTest.time a) (SlowTest.time b) = true.
Proof.
  intros Ht Hn n atSmall atLarge. subst atSmall atLarge.
  rewrite !analyze_spec. cbn [JUnitReport.slowTopQuantileTests].
  unfold slowTopTests, slice0. rewrite Ht. fold n.
  set (S := sort byTimeDesc _).
  assert (Hs : StronglySorted
                 (fun a b => Num.ge (SlowTest.time a) (SlowTest.time b) = true)
                 S) by apply slowTests_sorted, timedTestsOf_finite.
  split.
  - rewrite firstn_firstn. f_equal. lia.
  - intros a b Ha Hb.
    rewrite <- (firstn_skipn n S) in Hs.
    apply (StronglySorted_cross _ _ _ Hs a b Ha).
    rewrite skipn_firstn_comm in Hb. eapply In_firstn, Hb.
Qed.

(** X10.  Whatever the policy, the slow suites are suites of the pool, in
    order of decreasing duration, and every suite of the pool that is left
    out is no slower than any suite that is listed. *)
Theorem X10_slow_suites_are_the_slowest
    (root : Root.t) (opts : JUnitOptions.t) :
  let pool := Vars.allSuites (loopResult root) in
  let listed := JUnitReport.slowTopQuantileSuites (analyze root opts) in
  exists left_out,
    Permutation pool (listed ++ left_out)
    /\ StronglySorted
         (fun a b =>
            Num.ge (SlowSuite.totalTime a) (SlowSuite.totalTime b) = true)
         listed
    /\ forall a b,
         In a listed -> In b left_out ->
         Num.ge (SlowSuite.totalTime a) (SlowSuite.totalTime b) = true.
Proof.
  intros pool.
  assert (Hp : pool = candidatePool root) by apply allSuites_loopResult.
  clearbody pool. subst pool. set (pool := candidatePool root).
  intros listed.
  assert (Hl : listed
               = slowSuites pool (JUnitOptions.slowSuitesQuantile opts)
                   (JUnitOptions.minKeepSuites opts))
    by (subst listed; rewrite analyze_spec; reflexivity).
  rewrite Hl. clear Hl listed.
  pose proof (candidatePool_finite root) as Hfin. fold pool in Hfin.
  set (q := JUnitOptions.slowSuitesQuantile opts).
  set (k := JUnitOptions.minKeepSuites opts).
  set (R := fun a b =>
              Num.ge (SlowSuite.totalTime a) (SlowSuite.totalTime b) = true).
  assert (Hsorted : forall l,
             Forall (fun s => Num.isFinite (SlowSuite.totalTime s) = true) l ->
             StronglySorted R (sort byTotalTimeDesc l)).
  { intros l Hlf. apply (sort_desc_spec SlowSuite.totalTime), Hlf. }
  destruct (slowSuites_cases pool q k) as [(_ & _ & ->)|(_ & ->)].
  - (* the floor rule *)
    exists (skipn k (sort byTotalTimeDesc pool)).
    rewrite firstn_skipn. split; [apply sort_perm|]. split.
    + apply StronglySorted_firstn, Hsorted, Hfin.
    + apply StronglySorted_cross. rewrite firstn_skipn.
      apply Hsorted, Hfin.
  - (* the quantile selection *)
    unfold quantileSuites.
    destruct (quantileInclusive (map SlowSuite.totalTime pool) q)
      as [th|] eqn:Hth.
    + set (p := fun s => Num.ge (SlowSuite.totalTime s) th).
      exists (filter (fun s => negb (p s)) pool).
      assert (Hfth : Num.isFinite th = true).
      { apply quantileInclusive_In, in_map_iff in Hth as (s & <- & Hs).
        rewrite Forall_forall in Hfin. apply Hfin, Hs. }
      split; [|split].
      * eapply perm_trans; [apply (Permutation_filter_split p)|].
        apply Permutation_app_tail, sort_perm.
      * apply Hsorted, Forall_filter, Hfin.
      * intros a b Ha Hb.
        apply (Permutation_in _ (Permutation_sym (sort_perm _ _))) in Ha.
        apply filter_In in Ha as [Ha Hpa]. apply filter_In in Hb as [Hb Hpb].
        rewrite Forall_forall in Hfin. apply negb_true_iff in Hpb.
        apply (ge_trans_gap _ _ th); auto.
    + exists pool. simpl. split; [apply Permutation_refl|].
      split; [constructor|]. intros a b [].
Qed.

(** X11.  Every duration listed among the slow tests or the slow suites is a
    finite number. *)
Theorem X11_listed_durations_are_finite
    (root : Root.t) (opts : JUnitOptions.t) :
  Forall (fun t => Num.isFinite (SlowTest.time t) = true)
    (JUnitReport.slowTopQuantileTests (analyze root opts))
  /\ Forall (fun s => Num.isFinite (SlowSuite.totalTime s) = true)
       (JUnitReport.slowTopQuantileSuites (analyze root opts)).
Proof.
  rewrite analyze_spec.
  cbn [JUnitReport.slowTopQuantileTests JUnitReport.slowTopQuantileSuites].
  split.
  - unfold slowTopTests, slice0. apply Forall_forall. intros x Hx.
    apply In_firstn in Hx.
    apply (Permutation_in _ (Permutation_sym (sort_perm _ _))) in Hx.
    apply filter_In in Hx as [Hx _].
    pose proof (timedTestsOf_finite root) as H.
    rewrite Forall_forall in H. apply H, Hx.
  - pose proof (candidatePool_finite root) as Hfin.
    destruct (slowSuites_cases (candidatePool root)
                (JUnitOptions.slowSuitesQuantile opts)
                (JUnitOptions.minKeepSuites opts))
      as [(_ & _ & ->)|(_ & ->)].
    + apply Forall_forall. intros x Hx. apply In_firstn in Hx.
      apply (Permutation_in _ (Permutation_sym (sort_perm _ _))) in Hx.
      rewrite Forall_forall in Hfin. apply Hfin, Hx.
    + unfold quantileSuites. apply sort_Forall.
      destruct (quantileInclusive _ _); [|constructor].
      apply Forall_filter, Hfin.
Qed.

Lemma failingSuites_bounds (suites : list SuiteNode.t) :
  let failing :=
    List.length (filter (fun s => (0 <? suiteAnnotations s)%nat) suites) in
  let annotations := list_sum (map suiteAnnotations suites) in
  (failing <= List.length suites)%nat
  /\ (failing <= annotations)%nat
  /\ (failing = 0%nat <-> annotations = 0%nat).
Proof.
  induction suites as [|s ss IH]; simpl; [repeat split; lia|].
  cbv zeta in IH. destruct IH as (H1 & H2 & H3).
  destruct (Nat.ltb_spec 0 (suiteAnnotations s)); simpl; repeat split; lia.
Qed.

(** X12.  The counters agree with one another: [totalSuites] is the number
    of suites, [failedSuites] the number of suites with an annotated test
    case, so it exceeds neither [totalSuites] nor [failedTests], and is 0
    exactly when [failedTests] is; [failedTests] is the length of
    [failed]; [passedTests] never exceeds [totalTests]. *)
Theorem X12_counters_agree (root : Root.t) (opts : JUnitOptions.t) :
  let report := analyze root opts in
  let stats := JUnitReport.stats report in
  TestStats.totalSuites stats = Z.of_nat (List.length (collectSuites root))
  /\ TestStats.failedSuites stats = Z.of_nat (failingSuites root)
  /\ 0 <= TestStats.failedSuites stats <= TestStats.totalSuites stats
  /\ TestStats.failedSuites stats <= TestStats.failedTests stats
  /\ (TestStats.failedSuites stats = 0 <-> TestStats.failedTests stats = 0)
  /\ TestStats.failedTests stats
     = Z.of_nat (List.length (JUnitReport.failed report))
  /\ (JUnitReport.failed report = [] <-> TestStats.failedTests stats = 0)
  /\ 0 <= TestStats.totalTests stats
  /\ TestStats.passedTests stats <= TestStats.totalTests stats.
Proof.
  intros report stats.
  destruct (failedTests_counts_annotations root opts) as [Hft Hlen].
  fold report in Hft, Hlen. fold stats in Hft, Hlen.
  assert (Hlist : JUnitReport.failed report = []
                  <-> TestStats.failedTests stats = 0).
  { rewrite <- Hlen. destruct (JUnitReport.failed report); simpl; split;
      intros; try reflexivity; try discriminate; lia. }
  revert Hft Hlen Hlist. subst stats report. rewrite analyze_spec.
  cbn [JUnitReport.stats JUnitReport.failed TestStats.totalSuites
       TestStats.failedSuites TestStats.totalTests TestStats.failedTests
       TestStats.passedTests].
  intros Hft Hlen Hlist.
  pose proof (failingSuites_bounds (collectSuites root)) as (H1 & H2 & H3).
  fold (failingSuites root) in H1, H2, H3.
  fold (annotationTotal root) in H2, H3.
  repeat split; try lia; try (apply Hlist); auto.
Qed.

(** X13.  Suites are analysed independently of one another: for a document
    made of two runs of suites the counters are the sums of the counters
    of the runs, and [failed] and the two candidate pools are the
    concatenations. *)
Theorem X13_suites_are_independent
    (first second : list SuiteNode.t) (opts : JUnitOptions.t) :
  let whole := Root.mk (Some (first ++ second)) Undefined in
  let r := analyze whole opts in
  let r1 := analyze (Root.mk (Some first) Undefined) opts in
  let r2 := analyze (Root.mk (Some second) Undefined) opts in
  let add (f : TestStats.t -> Z) :=
    f (JUnitReport.stats r)
    = f (JUnitReport.stats r1) + f (JUnitReport.stats r2) in
  add TestStats.totalSuites /\ add TestStats.failedSuites
  /\ add TestStats.totalTests /\ add TestStats.failedTests
  /\ add TestStats.passedTests
  /\ JUnitReport.failed r = JUnitReport.failed r1 ++ JUnitReport.failed r2
  /\ Vars.allTimedTests (loopResult whole)
     = Vars.allTimedTests (loopResult (Root.mk (Some first) Undefined))
       ++ Vars.allTimedTests (loopResult (Root.mk (Some second) Undefined))
  /\ Vars.allSuites (loopResult whole)
     = Vars.allSuites (loopResult (Root.mk (Some first) Undefined))
       ++ Vars.allSuites (loopResult (Root.mk (Some second) Undefined)).
Proof.
  intros whole r r1 r2 add. subst add r r1 r2 whole.
  rewrite !analyze_spec, !allTimedTests_loopResult, !allSuites_loopResult.
  unfold failingSuites, testcaseCount, annotationTotal, timedTestsOf,
    candidatePool, collectSuites.
  cbn [JUnitReport.stats JUnitReport.failed TestStats.totalSuites
       TestStats.failedSuites TestStats.totalTests TestStats.failedTests
       TestStats.passedTests Root.testsuites_testsuite].
  rewrite !flat_map_app, filter_app, !map_app, !list_sum_app, !length_app,
    !Nat2Z.inj_add.
  repeat split; lia.
Qed.

(** X14.  Edge values of the slow-test threshold: [NaN] and [+Infinity]
    select nothing; [-Infinity] selects every test with a finite duration,
    up to [topSlowTests]. *)
Theorem X14_threshold_edges (root : Root.t) (opts : JUnitOptions.t) :
  let threshold := JUnitOptions.slowTestThresholdSec opts in
  let listed := JUnitReport.slowTopQuantileTests (analyze root opts) in
  (threshold = NaN \/ threshold = PosInf -> listed = [])
  /\ (threshold = NegInf ->
      listed
      = firstn (JUnitOptions.topSlowTests opts)
          (sort byTimeDesc (Vars.allTimedTests (loopResult root)))).
Proof.
  intros threshold listed.
  change listed
    with (slowTopTests (Vars.allTimedTests (loopResult root)) threshold
            (JUnitOptions.topSlowTests opts)).
  clear listed. unfold slowTopTests, slice0. split.
  - intros H. rewrite filter_none; [apply firstn_nil|].
    intros x. destruct H as [->| ->]; destruct (SlowTest.time x); reflexivity.
  - intros ->. rewrite filter_all; [reflexivity|].
    rewrite allTimedTests_loopResult.
    eapply Forall_impl; [|apply timedTestsOf_finite].
    intros x. simpl. destruct (SlowTest.time x); try discriminate. reflexivity.
Qed.

(** ** The selection of paths *)

(** What the matcher computes. *)

Section MatcherFacts.
Variable i : bool.

Lemma run_star (r : regex) (b : bool) (s : list codeUnit)
    (k : bool -> list codeUnit -> bool) :
  regexRun i (Star r) b s k = starLoop i r k (List.length s) b s.
Proof. reflexivity. Qed.

Lemma iterate_correct (r : regex) (k : bool -> list codeUnit -> bool) :
  (forall b s k', regexRun i r b s k' = true <-> accepted i r b s k') ->
  forall fuel b s,
    (List.length s <= fuel)%nat ->
    (starLoop i r k fuel b s = true <-> accepted i (Star r) b s k).
Proof.
  intros IH. unfold accepted in *.
  induction fuel as [|fuel IHf]; intros b s Hlen.
  - simpl. split.
    + intros H. exists b, s. split; [constructor|exact H].
    + intros (b' & s' & Hm & Hk).
      inversion Hm; subst; [exact Hk|lia].
  - cbn [starLoop]. rewrite orb_true_iff, IH. split.
    + intros [(b1 & s1 & Hm & Hk)|Hk].
      * apply andb_true_iff in Hk as [Hlt Hk]. apply Nat.ltb_lt in Hlt.
        apply IHf in Hk as (b2 & s2 & Hm2 & Hk2); [|lia].
        exists b2, s2. split; [|exact Hk2].
        eapply m_star_more; eassumption.
      * exists b, s. split; [constructor|exact Hk].
    + intros (b' & s' & Hm & Hk). inversion Hm; subst.
      * right. exact Hk.
      * left. match goal with
              | H1 : matches i r b s ?b1 ?s1 |- _ =>
                  exists b1, s1; split; [exact H1|]
              end.
        apply andb_true_iff. split; [apply Nat.ltb_lt; assumption|].
        apply IHf; [lia|]. eauto.
Qed.

(** The matcher accepts exactly when the expression matches a prefix that
    the continuation accepts. *)
Lemma run_correct (r : regex) :
  forall b s k, regexRun i r b s k = true <-> accepted i r b s k.
Proof.
  unfold accepted.
  induction r as [|c| | | |r1 IH1 r2 IH2|r1 IH1 r2 IH2|r IH]; intros b s k.
  - simpl. split.
    + intros H. exists b, s. split; [constructor|exact H].
    + intros (b' & s' & Hm & Hk). inversion Hm; subst. exact Hk.
  - simpl. destruct s as [|x s].
    + split; [discriminate|]. intros (b' & s' & Hm & _). inversion Hm.
    + rewrite andb_true_iff. split.
      * intros [Hc Hk]. exists false, s.
        split; [constructor; exact Hc|exact Hk].
      * intros (b' & s' & Hm & Hk). inversion Hm; subst. auto.
  - simpl. destruct s as [|x s].
    + split; [discriminate|]. intros (b' & s' & Hm & _). inversion Hm.
    + rewrite andb_true_iff, negb_true_iff. split.
      * intros [Hc Hk]. exists false, s.
        split; [constructor; exact Hc|exact Hk].
      * intros (b' & s' & Hm & Hk). inversion Hm; subst. auto.
  - simpl. rewrite andb_true_iff. split.
    + intros [-> Hk]. exists true, s. split; [constructor|exact Hk].
    + intros (b' & s' & Hm & Hk). inversion Hm; subst. auto.
  - simpl. destruct s as [|x s].
    + split.
      * intros Hk. exists b, []. split; [constructor|exact Hk].
      * intros (b' & s' & Hm & Hk). inversion Hm; subst. exact Hk.
    + split; [discriminate|]. intros (b' & s' & Hm & _). inversion Hm.
  - cbn [regexRun]. rewrite IH1. split.
    + intros (b1 & s1 & Hm1 & H2). apply IH2 in H2 as (b2 & s2 & Hm2 & Hk).
      exists b2, s2. split; [eapply m_seq; eassumption|exact Hk].
    + intros (b2 & s2 & Hm & Hk). inversion Hm; subst.
      do 2 eexists. split; [eassumption|]. apply IH2. eauto.
  - cbn [regexRun]. rewrite orb_true_iff, IH1, IH2. split.
    + intros [(b' & s' & Hm & Hk)|(b' & s' & Hm & Hk)];
        exists b', s'; (split; [|exact Hk]);
        [apply m_alt_l|apply m_alt_r]; exact Hm.
    + intros (b' & s' & Hm & Hk). inversion Hm; subst; eauto.
  - rewrite run_star. apply iterate_correct; [exact IH|lia].
Qed.

End MatcherFacts.

Section ExpressionFacts.
Variable i : bool.

Lemma matches_seq (r1 r2 : regex) b s b2 s2 :
  matches i (Seq r1 r2) b s b2 s2
  <-> exists b1 s1, matches i r1 b s b1 s1 /\ matches i r2 b1 s1 b2 s2.
Proof.
  split.
  - intros H. inversion H; subst. eauto.
  - intros (b1 & s1 & H1 & H2). eapply m_seq; eassumption.
Qed.

Lemma matches_alt (r1 r2 : regex) b s b' s' :
  matches i (Alt r1 r2) b s b' s'
  <-> matches i r1 b s b' s' \/ matches i r2 b s b' s'.
Proof.
  split.
  - intros H. inversion H; subst; auto.
  - intros [H|H]; [apply m_alt_l|apply m_alt_r]; exact H.
Qed.

Lemma matches_chr (c : codeUnit) b s b' s' :
  matches i (Chr c) b s b' s'
  <-> exists x, s = x :: s' /\ same_char i x c = true /\ b' = false.
Proof.
  split.
  - intros H. inversion H; subst. eauto.
  - intros (x & -> & Hx & ->). constructor. exact Hx.
Qed.

Lemma matches_bol b s b' s' :
  matches i Bol b s b' s' <-> b = true /\ b' = true /\ s' = s.
Proof.
  split.
  - intros H. inversion H; subst. auto.
  - intros (-> & -> & ->). constructor.
Qed.

Lemma matches_eol b s b' s' :
  matches i Eol b s b' s' <-> s = [] /\ s' = [] /\ b' = b.
Proof.
  split.
  - intros H. inversion H; subst. auto.
  - intros (-> & -> & ->). constructor.
Qed.

Lemma matches_eps b s b' s' :
  matches i Eps b s b' s' <-> s' = s /\ b' = b.
Proof.
  split.
  - intros H. inversion H; subst. auto.
  - intros (-> & ->). constructor.
Qed.

Lemma after_app (b : bool) (m1 m2 : list codeUnit) :
  startAfter (startAfter b m1) m2 = startAfter b (m1 ++ m2).
Proof. destruct m1, m2; reflexivity. Qed.

Lemma matches_lit (w : string) b s b' s' :
  matches i (literal w) b s b' s'
  <-> exists m, s = m ++ s' /\ same_word i m w /\ b' = startAfter b m.
Proof.
  unfold literal, same_word. revert b s.
  induction (unitsOf w) as [|c cs IH]; intros b s; simpl.
  - rewrite matches_eps. split.
    + intros (-> & ->). exists []. repeat split. constructor.
    + intros (m & -> & Hm & ->). inversion Hm; subst. auto.
  - rewrite matches_seq. split.
    + intros (b1 & s1 & H1 & H2). apply matches_chr in H1 as (x & -> & Hx & ->).
      apply IH in H2 as (m & -> & Hm & ->).
      exists (x :: m). repeat split.
      * constructor; assumption.
      * destruct m; reflexivity.
    + intros (m & -> & Hm & ->). inversion Hm as [|x ? m' ? Hx Hm']; subst.
      exists false, (m' ++ s'). split.
      * apply matches_chr. exists x. repeat split. exact Hx.
      * apply IH. exists m'. repeat split; [exact Hm'|].
        destruct m'; reflexivity.
Qed.

Lemma matches_star_dot b s b' s' :
  matches i (Star Dot) b s b' s'
  <-> exists x, s = x ++ s' /\ oneLine x /\ b' = startAfter b x.
Proof.
  unfold oneLine. split.
  - intros H. remember (Star Dot) as r eqn:Er.
    induction H; try discriminate.
    + exists []. repeat split. constructor.
    + injection Er as ->.
      destruct (IHmatches2 eq_refl) as (x & -> & Hx & ->).
      match goal with H : matches i Dot _ _ _ _ |- _ => inversion H; subst end.
      eexists (_ :: x). repeat split; [|destruct x; reflexivity].
      constructor; assumption.
  - intros (x & -> & Hx & ->). revert b.
    induction Hx as [|c x Hc Hx IH]; intros b; [constructor|].
    apply m_star_more with (b1 := false) (s1 := x ++ s').
    + constructor. exact Hc.
    + simpl. apply Nat.lt_succ_diag_r.
    + replace (startAfter b (c :: x)) with (startAfter false x)
        by (destruct x; reflexivity).
      apply IH.
Qed.

Lemma search_correct (r : regex) (b : bool) (s : list codeUnit) :
  regexSearch i r b s = true
  <-> exists pre rest b' s',
        s = pre ++ rest /\ matches i r (startAfter b pre) rest b' s'.
Proof.
  revert b. induction s as [|c s IH]; intros b; simpl.
  - rewrite orb_false_r, run_correct. unfold accepted. split.
    + intros (b' & s' & Hm & _). exists [], [], b', s'. auto.
    + intros (pre & rest & b' & s' & E & Hm).
      symmetry in E. apply app_eq_nil in E as [-> ->]. eauto.
  - rewrite orb_true_iff, run_correct, IH. unfold accepted. split.
    + intros [(b' & s' & Hm & _)|(pre & rest & b' & s' & -> & Hm)].
      * exists [], (c :: s), b', s'. auto.
      * exists (c :: pre), rest, b', s'. split; [reflexivity|].
        destruct pre; exact Hm.
    + intros (pre & rest & b' & s' & E & Hm). destruct pre as [|c' pre].
      * left. simpl in E. subst rest. eauto.
      * right. injection E as -> ->. exists pre, rest, b', s'.
        split; [reflexivity|]. destruct pre; exact Hm.
Qed.

End ExpressionFacts.

Lemma same_char_slash (x : codeUnit) :
  same_char true x (unitOf "/") = true <-> x = unitOf "/".
Proof.
  split; [|intros ->; reflexivity].
  change (unitOf "/") with 47%N. unfold same_char.
  change (upcase 47%N) with 47%N. intros H. apply N.eqb_eq in H.
  unfold upcase in H.
  destruct (97 <=? x)%N eqn:E1; destruct (x <=? 122)%N eqn:E2;
    cbn [andb] in H; try exact H.
  apply N.leb_le in E1, E2. lia.
Qed.

(** [re] accepts the paths that read: a start of segment, a name,
    [.xml]. *)
Lemma test_re (s : list codeUnit) :
  regexTest true re s = true
  <-> exists pre body ext,
        s = pre ++ body ++ ext /\ segmentStart pre /\ nameLike body
        /\ same_word true ext ".xml".
Proof.
  unfold regexTest. rewrite search_correct.
  unfold re, segmentStart, nameLike. split.
  - intros (pre & rest & b' & s' & -> & Hm).
    apply matches_seq in Hm as (b1 & s1 & Hstart & Hm).
    apply matches_seq in Hm as (b2 & s2 & Hname & Hm).
    apply matches_seq in Hm as (b3 & s3 & Hext & Hend).
    apply matches_eol in Hend as (-> & -> & ->).
    apply matches_lit in Hext as (ext & -> & Hext & _).
    rewrite app_nil_r in *.
    assert (Hbody : exists body, s1 = body ++ ext /\ nameLike body).
    { unfold nameLike. apply matches_alt in Hname as [Hn|Hn].
      - apply matches_seq in Hn as (b4 & s4 & Hw & Hx).
        apply matches_lit in Hw as (w & -> & Hw & _).
        apply matches_star_dot in Hx as (x & -> & Hx & _).
        exists (w ++ x). rewrite <- app_assoc. split; [reflexivity|].
        left. eauto.
      - apply matches_seq in Hn as (b4 & s4 & Hx & Hn).
        apply matches_seq in Hn as (b5 & s5 & Hw & Hy).
        apply matches_star_dot in Hx as (x & -> & Hx & _).
        apply matches_lit in Hw as (w & -> & Hw & _).
        apply matches_star_dot in Hy as (y & -> & Hy & _).
        exists (x ++ w ++ y). rewrite <- !app_assoc. split; [reflexivity|].
        right. exists x, w, y. auto. }
    destruct Hbody as (body & -> & Hbody).
    apply matches_alt in Hstart as [Hs|Hs].
    + apply matches_bol in Hs as (Hb & _ & <-).
      destruct pre; [|discriminate].
      exists [], body, ext. auto.
    + apply matches_chr in Hs as (x & -> & Hx & _).
      apply same_char_slash in Hx as ->.
      exists (pre ++ [unitOf "/"]), body, ext. rewrite <- app_assoc.
      repeat split; eauto.
  - intros (pre & body & ext & -> & Hpre & Hbody & Hext).
    assert (Hrest : forall b,
               exists b', matches true
                 (Seq (Alt (Seq (literal "test-") (Star Dot))
                         (Seq (Star Dot) (Seq (literal "junit") (Star Dot))))
                    (Seq (literal ".xml") Eol))
                 b (body ++ ext) b' []).
    { intros b.
      assert (Hn : exists b1,
                 matches true
                   (Alt (Seq (literal "test-") (Star Dot))
                      (Seq (Star Dot) (Seq (literal "junit") (Star Dot))))
                   b (body ++ ext) b1 ext).
      { destruct Hbody as [(w & x & -> & Hw & Hx)
                          |(x & w & y & -> & Hw & Hx & Hy)].
        - eexists. apply m_alt_l. apply matches_seq.
          exists (startAfter b w), (x ++ ext). split.
          + apply matches_lit. exists w. rewrite <- app_assoc. auto.
          + apply matches_star_dot. exists x. auto.
        - eexists. apply m_alt_r. apply matches_seq.
          exists (startAfter b x), ((w ++ y) ++ ext). split.
          + apply matches_star_dot. exists x. rewrite <- !app_assoc. auto.
          + apply matches_seq.
            exists (startAfter (startAfter b x) w), (y ++ ext). split.
            * apply matches_lit. exists w. rewrite <- app_assoc. auto.
            * apply matches_star_dot. exists y. auto. }
      destruct Hn as (b1 & Hn). eexists. apply matches_seq.
      exists b1, ext. split; [exact Hn|]. apply matches_seq.
      exists (startAfter b1 ext), []. split.
      - apply matches_lit. exists ext. rewrite app_nil_r. auto.
      - apply matches_eol. auto. }
    destruct Hpre as [->|(pre' & ->)].
    + destruct (Hrest true) as (b' & Hm).
      exists [], (body ++ ext), b', []. split; [reflexivity|].
      apply matches_seq. exists true, (body ++ ext). split; [|exact Hm].
      apply m_alt_l. constructor.
    + destruct (Hrest false) as (b' & Hm).
      exists pre', ((unitOf "/") :: body ++ ext), b', [].
      split; [rewrite <- app_assoc; reflexivity|].
      apply matches_seq. exists false, (body ++ ext). split; [|exact Hm].
      apply m_alt_r. constructor. reflexivity.
Qed.

Section PathFacts.

Lemma normalize_app (a b : list codeUnit) :
  normalizeSeparators (a ++ b)
  = normalizeSeparators a ++ normalizeSeparators b.
Proof. apply map_app. Qed.

Lemma normalize_no_backslash (p : list codeUnit) :
  ~ In (unitOf "\") (normalizeSeparators p).
Proof.
  unfold normalizeSeparators. intros H. apply in_map_iff in H as (c & Hc & _).
  destruct (N.eqb_spec c (unitOf "\")); [discriminate|congruence].
Qed.

Lemma normalize_fixed (p : list codeUnit) :
  ~ In (unitOf "\") p -> normalizeSeparators p = p.
Proof.
  unfold normalizeSeparators.
  induction p as [|c p IH]; cbn [map]; [reflexivity|].
  intros H. destruct (N.eqb_spec c (unitOf "\")) as [->|_].
  - exfalso. apply H. left. reflexivity.
  - rewrite IH; [reflexivity|]. intros Hin. apply H. right. exact Hin.
Qed.

Lemma normalize_idem (p : list codeUnit) :
  normalizeSeparators (normalizeSeparators p) = normalizeSeparators p.
Proof. apply normalize_fixed, normalize_no_backslash. Qed.

Lemma normalize_oneLine (x : list codeUnit) :
  oneLine x -> oneLine (normalizeSeparators x).
Proof.
  unfold oneLine, normalizeSeparators. intros H. apply Forall_map.
  eapply Forall_impl; [|exact H]. intros c Hc. cbv beta.
  destruct (N.eqb c (unitOf "\")); [reflexivity|exact Hc].
Qed.

Lemma same_char_backslash (c : codeUnit) :
  same_char true (unitOf "\") c = true -> c = unitOf "\".
Proof.
  change (unitOf "\") with 92%N. unfold same_char.
  change (upcase 92%N) with 92%N. intros H. apply N.eqb_eq in H.
  unfold upcase in H.
  destruct (97 <=? c)%N eqn:E1; destruct (c <=? 122)%N eqn:E2;
    cbn [andb] in H; try (symmetry; exact H).
  apply N.leb_le in E1, E2. lia.
Qed.

Lemma same_word_no_backslash (m : list codeUnit) (w : string) :
  same_word true m w -> ~ In (unitOf "\") (unitsOf w) ->
  ~ In (unitOf "\") m.
Proof.
  unfold same_word. induction 1 as [|x c m cs Hx Hm IH]; simpl;
    [tauto|].
  intros Hw [->|Hin].
  - apply Hw. left. apply same_char_backslash, Hx.
  - apply IH; [tauto|exact Hin].
Qed.

End PathFacts.

Lemma selected_paths (xmlPaths : list (list codeUnit)) (p : list codeUnit) :
  In p (selectJUnitPaths xmlPaths)
  <-> (exists original,
         In original xmlPaths /\ p = normalizeSeparators original)
      /\ exists pre body ext,
           p = pre ++ body ++ ext /\ segmentStart pre /\ nameLike body
           /\ same_word true ext ".xml".
Proof.
  unfold selectJUnitPaths. rewrite filter_In, in_map_iff, test_re.
  split.
  - intros [(o & <- & Ho) H]. split; [exists o; auto|exact H].
  - intros [(o & Ho & ->) H]. split; [exists o; auto|exact H].
Qed.

Lemma selected_normal (xmlPaths : list (list codeUnit)) :
  (forall p, In p (selectJUnitPaths xmlPaths) -> ~ In (unitOf "\") p)
  /\ selectJUnitPaths (selectJUnitPaths xmlPaths) = selectJUnitPaths xmlPaths.
Proof.
  assert (Hno : forall p, In p (selectJUnitPaths xmlPaths) ->
                          ~ In (unitOf "\") p).
  { unfold selectJUnitPaths. intros p Hp. apply filter_In in Hp as [Hp _].
    apply in_map_iff in Hp as (o & <- & _). apply normalize_no_backslash. }
  split; [exact Hno|].
  unfold selectJUnitPaths at 1.
  replace (map normalizeSeparators (selectJUnitPaths xmlPaths))
    with (selectJUnitPaths xmlPaths).
  - unfold selectJUnitPaths.
    induction (map normalizeSeparators xmlPaths) as [|x l IH];
      [reflexivity|].
    simpl. destruct (regexTest true re x) eqn:E; simpl; rewrite ?E, IH;
      reflexivity.
  - induction (selectJUnitPaths xmlPaths) as [|x l IH]; [reflexivity|].
    simpl. rewrite normalize_fixed by (apply Hno; left; reflexivity).
    f_equal. apply IH. intros p Hp. apply Hno. right. exact Hp.
Qed.

(** X15.  [listJUnitXmlPaths] fails exactly as the glob does; otherwise a
    path is returned exactly when it is the normalised form of a path of
    the glob and reads: the start of the path or a [/]; then either
    [test-] and anything, or anything, [junit] and anything, on one line;
    then [.xml] at the very end, case ignored throughout. *)
Theorem X15_returned_paths (GlobError : Type)
    (fg : list codeUnit -> number -> outcome GlobError (list (list codeUnit)))
    (cwd : list codeUnit) (maxDepth : number) :
  match listJUnitXmlPaths GlobError fg cwd maxDepth with
  | Throws e => fg cwd maxDepth = Throws e
  | Returns paths =>
      exists xmlPaths,
        fg cwd maxDepth = Returns xmlPaths
        /\ forall p,
             In p paths
             <-> (exists original,
                    In original xmlPaths /\ p = normalizeSeparators original)
                 /\ exists pre body ext,
                      p = pre ++ body ++ ext /\ segmentStart pre
                      /\ nameLike body /\ same_word true ext ".xml"
  end.
Proof.
  unfold listJUnitXmlPaths. destruct (fg cwd maxDepth) as [xmlPaths|e].
  - exists xmlPaths. split; [reflexivity|]. apply selected_paths.
  - reflexivity.
Qed.

(** X16.  The paths that [listJUnitXmlPaths] returns hold no backslash,
    and normalising and filtering them again changes nothing. *)
Theorem X16_returned_paths_are_normal (GlobError : Type)
    (fg : list codeUnit -> number -> outcome GlobError (list (list codeUnit)))
    (cwd : list codeUnit) (maxDepth : number) (paths : list (list codeUnit)) :
  listJUnitXmlPaths GlobError fg cwd maxDepth = Returns paths ->
  (forall p, In p paths -> ~ In (unitOf "\") p)
  /\ selectJUnitPaths paths = paths.
Proof.
  unfold listJUnitXmlPaths. destruct (fg cwd maxDepth) as [xmlPaths|e];
    [|discriminate].
  intros [= <-]. apply selected_normal.
Qed.

Lemma recognised_shape (a b w ext : list codeUnit) (sep : list codeUnit) :
  same_word true ext ".xml" -> oneLine b ->
  (same_word true w "junit" /\ oneLine a /\ sep = []
   \/ same_word true w "test-"
      /\ (a = [] /\ sep = []
          \/ sep = [unitOf "/"] \/ sep = [unitOf "\"])) ->
  selectJUnitPaths [a ++ sep ++ w ++ b ++ ext]
  = [normalizeSeparators (a ++ sep ++ w ++ b ++ ext)].
Proof.
  intros Hext Hb Hshape. unfold selectJUnitPaths. cbn [map filter].
  replace (regexTest true re (normalizeSeparators (a ++ sep ++ w ++ b ++ ext)))
    with true; [reflexivity|].
  symmetry. apply test_re.
  rewrite !normalize_app.
  assert (Hx : normalizeSeparators ext = ext).
  { apply normalize_fixed, (same_word_no_backslash _ _ Hext).
    vm_compute. intuition discriminate. }
  assert (Hw : forall word,
             same_word true w word ->
             ~ In (unitOf "\") (unitsOf word) ->
             normalizeSeparators w = w).
  { intros word H1 H2. apply normalize_fixed.
    exact (same_word_no_backslash _ _ H1 H2). }
  rewrite Hx. apply normalize_oneLine in Hb.
  destruct Hshape as [(Hj & Ha & ->)|(Ht & Hsep)].
  - rewrite (Hw "junit"%string Hj) by (vm_compute; intuition discriminate).
    apply normalize_oneLine in Ha.
    exists [], (normalizeSeparators a ++ w ++ normalizeSeparators b), ext.
    simpl. rewrite <- !app_assoc. split; [reflexivity|].
    split; [left; reflexivity|]. split; [|exact Hext].
    right. exists (normalizeSeparators a), w, (normalizeSeparators b). auto.
  - rewrite (Hw "test-"%string Ht) by (vm_compute; intuition discriminate).
    assert (Hn : nameLike (w ++ normalizeSeparators b))
      by (left; exists w, (normalizeSeparators b); auto).
    destruct Hsep as [(-> & ->)|[-> | ->]].
    + exists [], (w ++ normalizeSeparators b), ext.
      simpl. rewrite <- !app_assoc. split; [reflexivity|].
      split; [left; reflexivity|]. auto.
    + exists (normalizeSeparators a ++ [unitOf "/"]),
        (w ++ normalizeSeparators b), ext.
      simpl. rewrite <- !app_assoc. split; [reflexivity|].
      split; [right; eauto|]. auto.
    + exists (normalizeSeparators a ++ [unitOf "/"]),
        (w ++ normalizeSeparators b), ext.
      simpl. rewrite <- !app_assoc. split; [reflexivity|].
      split; [right; eauto|]. auto.
Qed.

(** X17.  What is recognised: [junit] anywhere before the extension, in a
    directory name as well as in the file name; and [test-] at the start
    of the path or right after a separator, a backslash counting as one
    because separators are normalised first. *)
Theorem X17_recognised_paths (a b w ext : list codeUnit) :
  let kept p := selectJUnitPaths [p] = [normalizeSeparators p] in
  same_word true ext ".xml" -> oneLine b ->
  (same_word true w "junit" -> oneLine a -> kept (a ++ w ++ b ++ ext))
  /\ (same_word true w "test-" ->
      kept (w ++ b ++ ext)
      /\ kept (a ++ (unitOf "/") :: w ++ b ++ ext)
      /\ kept (a ++ (unitOf "\") :: w ++ b ++ ext)).
Proof.
  intros kept Hext Hb. subst kept. split.
  - intros Hw Ha.
    apply (recognised_shape a b w ext [] Hext Hb). left. auto.
  - intros Hw. split; [|split].
    + apply (recognised_shape [] b w ext [] Hext Hb). right. auto.
    + apply (recognised_shape a b w ext [unitOf "/"] Hext Hb). right. auto.
    + apply (recognised_shape a b w ext [unitOf "\"] Hext Hb). right. auto.
Qed.

(** ** The further properties at sample inputs *)

Lemma X2_witness :
  let items :=
    [Some "A.java"; None; Some "B.java"; Some ""; Some "B.java"]%string in
  mostFrequent items = Some "B.java"%string
  /\ "B.java"%string <> ""%string
  /\ In (Some "B.java"%string) items
  /\ forall s', s' <> ""%string ->
                occurrences s' items <= occurrences "B.java" items.
Proof.
  intros items.
  assert (H : mostFrequent items = Some "B.java"%string) by reflexivity.
  exact (conj H (X2_mostFrequent_is_most_frequent items "B.java" H)).
Defined.

Lemma X3_witness :
  let items := [Some "B"; Some "A"; Some "A"; Some "B"]%string in
  mostFrequent items = Some "B"%string
  /\ occurrences "A" items = occurrences "B" items
  /\ exists l1 l2,
       items = l1 ++ Some "B"%string :: l2 /\ ~ In (Some "A"%string) l1.
Proof.
  intros items.
  assert (H : mostFrequent items = Some "B"%string) by reflexivity.
  assert (Hn : "A"%string <> ""%string) by discriminate.
  assert (Hd : "A"%string <> "B"%string) by discriminate.
  assert (He : occurrences "A" items = occurrences "B" items)
    by reflexivity.
  exact (conj H (conj He
           (X3_mostFrequent_first_wins_ties items "B" "A" H Hn Hd He))).
Defined.

Lemma X4_witness :
  let values := map Num.ofNat [3; 1; 2]%nat in
  exists m,
    quantileInclusive values (Fin 0) = Some m
    /\ In m values
    /\ forall v, In v values -> Num.le m v = true.
Proof.
  intros values.
  assert (Hf : Forall (fun v => Num.isFinite v = true) values)
    by (repeat constructor).
  assert (Hne : values <> []) by discriminate.
  assert (Hlen : Z.of_nat (List.length values) < 2 ^ 53) by reflexivity.
  assert (Hq : Num.le (Fin 0) (Fin 0) = true) by reflexivity.
  exact (X4_quantile_low_is_minimum values (Fin 0) Hf Hne Hlen Hq).
Defined.

Lemma X5_witness :
  let values := map Num.ofNat [3; 1; 2]%nat in
  exists m,
    quantileInclusive values one = Some m
    /\ In m values
    /\ forall v, In v values -> Num.le v m = true.
Proof.
  intros values.
  assert (Hf : Forall (fun v => Num.isFinite v = true) values)
    by (repeat constructor).
  assert (Hne : values <> []) by discriminate.
  assert (Hlen : Z.of_nat (List.length values) < 2 ^ 53) by reflexivity.
  exact (X5_quantile_one_is_maximum values Hf Hne Hlen).
Defined.

Lemma X6_witness :
  let opts := JUnitOptions.mk (Num.ofNat 5) 20 NaN 2 in
  let pool := Vars.allSuites (loopResult fiveSuites) in
  quantileInclusive (map SlowSuite.totalTime pool) NaN = None
  /\ quantileSuites pool NaN = []
  /\ JUnitReport.slowTopQuantileSuites (analyze fiveSuites opts)
     = firstn 2 (sort byTotalTimeDesc pool).
Proof.
  intros opts pool.
  exact (X6_undefined_quantile_falls_back_to_floor fiveSuites opts
           (or_introl eq_refl)).
Defined.

Lemma X8_witness :
  let pool := Vars.allSuites (loopResult fiveSuites) in
  exists more,
    quantileSuites pool (Fin (zOf (Num.ofDecimal 5 1)))
    = quantileSuites pool (Fin (zOf (Num.ofDecimal 8 1))) ++ more.
Proof.
  intros pool.
  assert (Hlen : Z.of_nat (List.length pool) < 2 ^ 53)
    by (vm_compute; reflexivity).
  assert (Hq : 0 <= zOf (Num.ofDecimal 5 1) <= zOf (Num.ofDecimal 8 1))
    by (split; vm_compute; discriminate).
  assert (Hu : zOf (Num.ofDecimal 8 1) <= Num.unit)
    by (vm_compute; discriminate).
  exact (X8_higher_quantile_keeps_a_prefix fiveSuites
           (zOf (Num.ofDecimal 5 1)) (zOf (Num.ofDecimal 8 1)) Hlen Hq Hu).
Defined.

Lemma X9_witness :
  let small := JUnitOptions.mk (Num.ofNat 5) 1 (Num.ofDecimal 8 1) 1 in
  let atSmall := JUnitReport.slowTopQuantileTests (analyze roundTrip small) in
  let atLarge :=
    JUnitReport.slowTopQuantileTests
      (analyze roundTrip JUnitOptions.default) in
  atSmall = firstn 1 atLarge
  /\ forall a b,
       In a atSmall -> In b (skipn 1 atLarge) ->
       Num.ge (SlowTest.time a) (SlowTest.time b) = true.
Proof.
  intros small atSmall atLarge.
  assert (Hn : (JUnitOptions.topSlowTests small
                <= JUnitOptions.topSlowTests JUnitOptions.default)%nat)
    by (vm_compute; lia).
  exact (X9_smaller_topN_keeps_the_slowest roundTrip small
           JUnitOptions.default eq_refl Hn).
Defined.

Lemma X16_witness :
  let fg (cwd : list codeUnit) (deep : number)
    : outcome unit (list (list codeUnit)) :=
    Returns [unitsOf "ci\junit.xml"; unitsOf "pom.xml"] in
  let paths := [unitsOf "ci/junit.xml"] in
  listJUnitXmlPaths unit fg (unitsOf ".") (Num.ofNat 3) = Returns paths
  /\ (forall p, In p paths -> ~ In (unitOf "\") p)
  /\ selectJUnitPaths paths = paths.
Proof.
  intros fg paths.
  assert (H : listJUnitXmlPaths unit fg (unitsOf ".") (Num.ofNat 3)
              = Returns paths) by reflexivity.
  exact (conj H
           (X16_returned_paths_are_normal unit fg (unitsOf ".")
              (Num.ofNat 3) paths H)).
Defined.

Lemma X17_witness :
  let kept p := selectJUnitPaths [p] = [normalizeSeparators p] in
  (kept (unitsOf "ci\JUnit-reports\unit.XML"))
  /\ (kept (unitsOf "Test-unit.XML")
      /\ kept (unitsOf "ci/Test-unit.XML")
      /\ kept (unitsOf "ci\Test-unit.XML")).
Proof.
  intros kept.
  assert (Hext : same_word true (unitsOf ".XML") ".xml")
    by (repeat constructor).
  assert (Hb : oneLine (unitsOf "unit")) by (repeat constructor).
  assert (Hd : oneLine (unitsOf "-reports\unit")) by (repeat constructor).
  assert (Ha : oneLine (unitsOf "ci\")) by (repeat constructor).
  assert (Hj : same_word true (unitsOf "JUnit") "junit")
    by (repeat constructor).
  assert (Ht : same_word true (unitsOf "Test-") "test-")
    by (repeat constructor).
  split.
  - exact (proj1 (X17_recognised_paths (unitsOf "ci\") (unitsOf "-reports\unit")
                    (unitsOf "JUnit") (unitsOf ".XML") Hext Hd) Hj Ha).
  - exact (proj2 (X17_recognised_paths (unitsOf "ci") (unitsOf "unit")
                    (unitsOf "Test-") (unitsOf ".XML") Hext Hb) Ht).
Defined.
